(** * The gcp-secrets deploy executor

    A shallow embedding of
    [packages/gcp-secrets/src/executors/deploy/deploy.impl.ts]
    ([deployExecutor], [getCommandOptions], [addLabelsIfNeeded]) and the
    properties of the reconciliation it performs: which gcloud commands are
    issued, in which order, what is written to the definition files, and how
    the per-secret results are aggregated. *)

From Stdlib Require Import ZArith Ascii String List Permutation Lia.
From Stdlib Require Import DecimalString DecimalNat.
From stdpp Require Import base decidable option list strings gmap.

Local Open Scope string_scope.
Local Open Scope list_scope.

(** ** The JavaScript built-ins the executor relies on *)

Module JS.

(** Strings are sequences of bytes (the UTF-8 encoding of a well-formed
    JavaScript string). *)

Definition chr (n : nat) : ascii := ascii_of_nat n.
Definition str1 (c : ascii) : string := String c EmptyString.

(** The double-quote character. *)
Definition dq : ascii := chr 34.
Definition bs : ascii := chr 92.

(** [s.split(sep)] for a non-empty separator: the string is scanned from
    left to right, every occurrence of [sep] found after the end of the
    previous one closes a piece.  [skip] counts the characters of a matched
    separator that are still to be dropped, [cur] is the piece being read. *)
Fixpoint split_from (sep s : string) (skip : nat) (cur : string) : list string :=
  match s with
  | EmptyString => [cur]
  | String c s' =>
      match skip with
      | S k => split_from sep s' k cur
      | O =>
          if String.prefix sep s
          then cur :: split_from sep s' (String.length sep - 1) EmptyString
          else split_from sep s' 0 (cur +:+ str1 c)
      end
  end.

Definition split (sep s : string) : list string := split_from sep s 0 EmptyString.

(** [parts.join(sep)] *)
Fixpoint join (sep : string) (parts : list string) : string :=
  match parts with
  | [] => EmptyString
  | [p] => p
  | p :: rest => p +:+ sep +:+ join sep rest
  end.

(** [s.split(sep).pop()]: the last piece ([split] never returns the empty
    array). *)
Definition split_pop (sep s : string) : string :=
  List.last (split sep s) EmptyString.

(** [list.includes(x)] on strings. *)
Definition includes (l : list string) (x : string) : bool :=
  existsb (String.eqb x) l.

(** JavaScript numbers, as far as the executor needs them: the doubles
    whose value is an integer, the two infinities and NaN.  [Num z] is the
    double of value [z]; the two zeros are one ([-0] is only ever
    subtracted from). *)
Inductive number := Num (z : Z) | NaN | Infinity (negative : bool).

(** The Number value for an integer: the nearest double, ties to the even
    significand, infinite from [2^1024] on.  Integers up to [2^53] in
    absolute value are doubles. *)
Definition numberValue (z : Z) : number :=
  let m := Z.abs z in
  if (m <=? 2 ^ 53)%Z then Num z
  else
    let e := (Z.log2 m - 52)%Z in
    let significand := Z.shiftr m e in
    let rest := Z.land m (Z.ones e) in
    let half := Z.shiftl 1 (e - 1) in
    let rounded :=
      if (half <? rest)%Z || ((rest =? half)%Z && Z.odd significand)
      then (significand + 1)%Z else significand in
    let v := Z.shiftl rounded e in
    if (2 ^ 1024 <=? v)%Z then Infinity (z <? 0)%Z else Num (Z.sgn z * v).

(** [a - b] on doubles: the exact difference, rounded. *)
Definition minus (a b : number) : number :=
  match a, b with
  | Num x, Num y => numberValue (x - y)
  | Infinity s, Num _ => Infinity s
  | Num _, Infinity s => Infinity (negb s)
  | Infinity s, Infinity t => if Bool.eqb s t then NaN else Infinity s
  | _, _ => NaN
  end.

(** White space, as [parseInt] skips it, in UTF-8: the one-byte characters
    TAB, LF, VT, FF, CR and SP; *)
Definition white1 (a : nat) : bool :=
  (((9 <=? a) && (a <=? 13)) || (a =? 32))%nat.

(** the first byte of a longer white-space character; *)
Definition white_lead (a : nat) : bool :=
  ((a =? 194) || (a =? 225) || (a =? 226) || (a =? 227) || (a =? 239))%nat.

(** U+00A0; *)
Definition white2 (a b : nat) : bool :=
  ((a =? 194) && (b =? 160))%nat.

(** U+1680, U+2000 to U+200A, U+2028, U+2029, U+202F, U+205F, U+3000 and
    U+FEFF. *)
Definition white3 (a b c : nat) : bool :=
  (((a =? 225) && (b =? 154) && (c =? 128))
   || ((a =? 226) && (b =? 128) &&
       (((128 <=? c) && (c <=? 138)) || (c =? 168) || (c =? 169) || (c =? 175)))
   || ((a =? 226) && (b =? 129) && (c =? 159))
   || ((a =? 227) && (b =? 128) && (c =? 128))
   || ((a =? 239) && (b =? 187) && (c =? 191)))%nat.

Definition digit (c : ascii) : option Z :=
  let n := nat_of_ascii c in
  if ((48 <=? n) && (n <=? 57))%nat then Some (Z.of_nat (n - 48)) else None.

Fixpoint trim_start (s : string) : string :=
  match s with
  | EmptyString => s
  | String c1 s1 =>
      let a := nat_of_ascii c1 in
      if white1 a then trim_start s1
      else if white_lead a then
        match s1 with
        | String c2 s2 =>
            let b := nat_of_ascii c2 in
            if white2 a b then trim_start s2
            else
              match s2 with
              | String c3 s3 =>
                  if white3 a b (nat_of_ascii c3) then trim_start s3 else s
              | EmptyString => s
              end
        | EmptyString => s
        end
      else s
  end.

(** The longest prefix of decimal digits, most significant first. *)
Fixpoint digits (s : string) : list Z :=
  match s with
  | String c s' => match digit c with Some d => d :: digits s' | None => [] end
  | EmptyString => []
  end.

Definition mathInt (ds : list Z) : Z :=
  fold_left (fun acc d => 10 * acc + d)%Z ds 0%Z.

(** [parseInt(s, 10)]: leading white space is skipped, then an optional
    sign, then the longest run of digits is read; no digit gives NaN,
    otherwise the result is the Number value for the integer read. *)
Definition parseInt10 (s : string) : number :=
  let s1 := trim_start s in
  let '(sign, s2) :=
    match s1 with
    | String c rest =>
        if Ascii.eqb c "-" then ((-1)%Z, rest)
        else if Ascii.eqb c "+" then (1%Z, rest)
        else (1%Z, s1)
    | EmptyString => (1%Z, s1)
    end in
  match digits s2 with
  | [] => NaN
  | ds => numberValue (sign * mathInt ds)
  end.

(** [JSON.stringify] on an array of strings.  A string is quoted; inside
    it the quote and the backslash are escaped with a backslash, the
    control characters below U+0020 get their short escape or
    [\u00XX]. *)
Definition hex (n : nat) : ascii :=
  if (n <? 10)%nat then chr (48 + n) else chr (87 + n).

Definition quote_char (c : ascii) : string :=
  let n := nat_of_ascii c in
  if (n =? 34)%nat then String bs (str1 dq)
  else if (n =? 92)%nat then String bs (str1 bs)
  else if (n =? 8)%nat then String bs "b"
  else if (n =? 9)%nat then String bs "t"
  else if (n =? 10)%nat then String bs "n"
  else if (n =? 12)%nat then String bs "f"
  else if (n =? 13)%nat then String bs "r"
  else if (n <? 32)%nat then
    String bs (String "u" (String "0" (String "0"
      (String (hex (n / 16)) (str1 (hex (n mod 16)))))))
  else str1 c.

Fixpoint quote_body (s : string) : string :=
  match s with
  | EmptyString => EmptyString
  | String c s' => quote_char c +:+ quote_body s'
  end.

Definition quote (s : string) : string :=
  String dq (quote_body s +:+ str1 dq).

Fixpoint stringify_items (l : list string) : string :=
  match l with
  | [] => EmptyString
  | [x] => quote x
  | x :: rest => quote x +:+ "," +:+ stringify_items rest
  end.

Definition stringify (l : list string) : string :=
  "[" +:+ stringify_items l +:+ "]".

End JS.

(** ** Data model *)

(** [DeploySchema]: the options of the executor. *)
Record DeploySchema := {
  project : option string;
  secret : option string
}.

(** [ExistingSecret]: an entry of [gcloud secrets list].  [secret_labels]
    lists the label object in the order [Object.keys] enumerates it (its
    keys are distinct). *)
Record ExistingSecret := {
  secret_name : string;
  secret_labels : option (list (string * string))
}.

(** [ExistingServiceAccounts]: the IAM policy of a secret. *)
Record Binding := {
  members : list string;
  role : string
}.

Record ExistingServiceAccounts := {
  bindings : option (list Binding)
}.

(** The [__gcp_metadata] block of a secret definition file.  An absent (or
    non-array) [serviceAccounts] is [None]; an absent [onUpdateBehavior] is
    [None]. *)
Record Metadata := {
  status : string;
  labels : list string;
  serviceAccounts : option (list string);
  onUpdateBehavior : option string
}.

(** A parsed definition file: the secret entries (opaque here) and the
    metadata block. *)
Record SecretFile := {
  payload : string;
  __gcp_metadata : Metadata
}.

(** What [storeFile] writes: a definition as it was read, or what
    [decryptFile] produced from it (opaque). *)
Inductive fileData :=
| Definition_ (content : SecretFile)
| Decrypted (data : string).

(** The gcloud invocations of the executor, one constructor per command
    template; [opts] is [getCommandOptions options], [labelFlags] is the
    result of [addLabelsIfNeeded]. *)
Inductive gcloud :=
| SecretsList (opts : list string)
| SecretsUpdate (secretName : string) (labelFlags opts : list string)
| VersionsAdd (secretName file : string) (opts : list string)
| VersionsRetire (updateBehavior : string) (previousVersion : JS.number)
    (secretName : string) (opts : list string)
| SecretsCreate (secretName file : string) (labelFlags opts : list string)
| GetIamPolicy (secretName : string) (opts : list string)
| AddIamPolicyBinding (secretName member : string) (opts : list string)
| RemoveIamPolicyBinding (secretName member : string) (opts : list string).

(** Everything the executor does to the outside, in order: the commands
    it runs, the files it stores, the lines it logs ([ConsoleError] is the
    [console.error] of the [catch]). *)
Inductive event :=
| Exec (c : gcloud)
| Stored (file : string) (d : fileData)
| LogInfo (msg : string)
| LogWarn (msg : string)
| LogError (msg : string)
| ConsoleError (err : string).

(** A call either returns or throws; an error is its message. *)
Inductive outcome (A : Type) :=
| Returned (a : A)
| Thrown (err : string).
Arguments Returned {A} a.
Arguments Thrown {A} err.

(** The definition files on disk. *)
Abbreviation disk := (gmap string fileData).

(** The imports of [deploy.impl.ts] whose code is outside this file.
    [getFileContent] reads the files as they are on disk at that moment;
    [decryptFile] returns the decrypted content and leaves the definition
    it is given as it was read.  [execCommand] is one field per result type
    it is called at; its answer may depend on everything done before (the
    trace it is given ends with the command being run), which is how the
    remote service keeps state. *)
Record Collaborators := {
  isEncryptionKeySet : bool;
  getAllSecretFiles : string -> list string;
  getFileName : string -> string;
  getFileContent : disk -> string -> outcome SecretFile;
  decryptFile : SecretFile -> bool -> outcome string;
  yellow : string -> string;
  (* execCommand<ExistingSecret[]>(.., { silent, asJSON }) *)
  execCommand_secrets : list event -> outcome (list ExistingSecret);
  (* execCommand<{ name: string }>(.., { asJSON, silent }): the name *)
  execCommand_version : list event -> outcome string;
  (* execCommand<ExistingServiceAccounts>(.., { silent, asJSON }) *)
  execCommand_policy : list event -> outcome (option ExistingServiceAccounts);
  (* execCommand(..): { success, output }, the success flag *)
  execCommand_result : list event -> outcome bool
}.

(** ** Effects: state, trace and exceptions

    A computation starts from the files on disk and the trace of
    everything done before it; it returns or throws, leaves the files
    changed and adds its own events to the trace. *)

Definition M (A : Type) : Type :=
  disk -> list event -> outcome A * disk * list event.

#[global] Instance M_ret : MRet M := fun _ a d _ => (Returned a, d, []).

#[global] Instance M_bind : MBind M := fun _ _ k m d h =>
  match m d h with
  | (Returned a, d1, e1) =>
      let '(r, d2, e2) := k a d1 (h ++ e1) in (r, d2, e1 ++ e2)
  | (Thrown err, d1, e1) => (Thrown err, d1, e1)
  end.

(** The result of a call that has no other effect. *)
Definition lift {A} (o : outcome A) : M A := fun d _ => (o, d, []).

Definition emit (e : event) : M unit := fun d _ => (Returned tt, d, [e]).

(** Modelled from the spec: [storeFile] of [utils/file] (its code is not
    part of the sources at hand), which overwrites the file with the given
    content. *)
Definition storeFile (file : string) (content : fileData) : M unit := fun d _ =>
  (Returned tt, <[file := content]> d, [Stored file content]).

(** [execCommand(buildCommand([..]), ..)] *)
Definition execCommand {A} (answer : list event -> outcome A) (c : gcloud) : M A :=
  fun d h => (answer (h ++ [Exec c]), d, [Exec c]).

(** [list.forEach(f)] *)
Fixpoint forEach {A} (l : list A) (f : A -> M unit) : M unit :=
  match l with
  | [] => mret tt
  | x :: rest => f x ;; forEach rest f
  end.

(** ** The executor *)

Definition q : string := JS.str1 JS.dq.

(** [getCommandOptions]: the truthy parts handed to [buildCommand]. *)
Definition getCommandOptions (options : DeploySchema) : list string :=
  match project options with
  | Some p => if String.eqb p EmptyString then [] else ["--project=" +:+ p]
  | None => []
  end.

(** [addLabelsIfNeeded]: the parts handed to [buildCommand]. *)
Definition addLabelsIfNeeded (labels : list string) (isCreating : bool) : list string :=
  if (0 <? length labels)%nat then
    if isCreating then ["--labels=" +:+ JS.join "," labels]
    else ["--clear-labels"; "--update-labels=" +:+ JS.join "," labels]
  else ["--clear-labels"].

Definition accessorRole : string := "roles/secretmanager.secretAccessor".

Section Executor.

Variable W : Collaborators.
Variable options : DeploySchema.

Let opts := getCommandOptions options.

(** Lines 55-59: the secret name is the file name without its last
    extension. *)
Definition secretNameOf (file : string) : string :=
  JS.join "." (removelast (JS.split "." (getFileName W file))).

(** Line 62: [options.secret && options.secret !== secretName] *)
Definition filteredOut (secretName : string) : bool :=
  match secret options with
  | Some s => negb (String.eqb s EmptyString) && negb (String.eqb s secretName)
  | None => false
  end.

(** Lines 82-86 *)
Definition existingLabelsOf (secretExists : ExistingSecret) : list string :=
  map (fun kv => fst kv +:+ "=" +:+ snd kv) (default [] (secret_labels secretExists)).

(** Line 89 *)
Definition labelsDiffer (secretExists : ExistingSecret) (fileContent : SecretFile) : bool :=
  negb (String.eqb (JS.stringify (existingLabelsOf secretExists))
                   (JS.stringify (labels (__gcp_metadata fileContent)))).

(** Line 115 *)
Definition updateBehaviorOf (fileContent : SecretFile) : string :=
  match onUpdateBehavior (__gcp_metadata fileContent) with
  | Some b => if String.eqb b EmptyString then "destroy" else b
  | None => "destroy"
  end.

(** Lines 88-99 of the update block. *)
Definition labelStep (secretName : string) (fileContent : SecretFile)
    (secretExists : ExistingSecret) : M unit :=
  if labelsDiffer secretExists fileContent then
    emit (LogInfo ("Updating " +:+ q +:+ secretName +:+ q +:+ " it's labels")) ;;
    _ ← execCommand (execCommand_result W)
          (SecretsUpdate secretName
             (addLabelsIfNeeded (labels (__gcp_metadata fileContent)) false) opts) ;
    mret tt
  else mret tt.

(** Lines 115-134 of the update block. *)
Definition retireStep (secretName : string) (fileContent : SecretFile) (name : string) : M unit :=
  let newVersion := JS.split_pop "/versions/" name in
  let updateBehavior := updateBehaviorOf fileContent in
  if negb (String.eqb updateBehavior "none") then
    if JS.includes ["destroy"; "disable"] updateBehavior then
      let previousVersion := JS.minus (JS.parseInt10 newVersion) (JS.Num 1) in
      emit (LogInfo ((if String.eqb updateBehavior "disable"
                      then "Disabling" else "Destroying")
                     +:+ " previous version of secret " +:+ q +:+ secretName +:+ q)) ;;
      _ ← execCommand (execCommand_result W)
            (VersionsRetire updateBehavior previousVersion secretName opts) ;
      mret tt
    else
      emit (LogWarn (yellow W (q +:+ updateBehavior +:+ q
        +:+ " is an invalid onUpdateBehavior, valid are: "
        +:+ q +:+ "none" +:+ q +:+ ", " +:+ q +:+ "disable" +:+ q
        +:+ " or " +:+ q +:+ "destroy" +:+ q)))
  else mret tt.

(** Lines 81-136: the secret exists, update it. *)
Definition updateSecret (file secretName : string) (fileContent : SecretFile)
    (secretExists : ExistingSecret) : M bool :=
  labelStep secretName fileContent secretExists ;;
  name ← execCommand (execCommand_version W) (VersionsAdd secretName file opts) ;
  retireStep secretName fileContent name ;;
  mret true.

(** Lines 137-154: the secret does not exist, create it. *)
Definition createSecret (file secretName : string) (fileContent : SecretFile) : M bool :=
  emit (LogInfo ("Creating secret " +:+ q +:+ secretName +:+ q
                 +:+ " from file " +:+ q +:+ getFileName W file +:+ q)) ;;
  commandSuccess ← execCommand (execCommand_result W)
    (SecretsCreate secretName file
       (addLabelsIfNeeded (labels (__gcp_metadata fileContent)) true) opts) ;
  mret commandSuccess.

(** Lines 177-180: the members of the first binding of the accessor
    role. *)
Definition existingServiceAccountsOf (policy : option ExistingServiceAccounts) : list string :=
  match policy with
  | Some p =>
      match bindings p with
      | Some bs =>
          match find (fun b => String.eqb (role b) accessorRole) bs with
          | Some b => members b
          | None => []
          end
      | None => []
      end
  | None => []
  end.

(** Lines 182-183 *)
Definition serviceAccountsToDelete (allowed existing : list string) : list string :=
  List.filter (fun account => negb (JS.includes allowed account)) existing.

Definition serviceAccountsToAdd (allowed existing : list string) : list string :=
  List.filter (fun account => negb (JS.includes existing account)) allowed.

(** Lines 162-210: the service accounts are defined, manage them. *)
Definition manageServiceAccounts (secretName : string)
    (allowedServiceAccounts : list string) : M unit :=
  policy ← execCommand (execCommand_policy W) (GetIamPolicy secretName opts) ;
  let existingServiceAccounts := existingServiceAccountsOf policy in
  let toDelete := serviceAccountsToDelete allowedServiceAccounts existingServiceAccounts in
  let toAdd := serviceAccountsToAdd allowedServiceAccounts existingServiceAccounts in
  (if (0 <? length toAdd)%nat then
     emit (LogInfo ("Going to add " +:+ q +:+ JS.join "," toAdd +:+ q
                    +:+ " to secret " +:+ q +:+ secretName +:+ q)) ;;
     forEach toAdd (fun newMember =>
       _ ← execCommand (execCommand_result W)
             (AddIamPolicyBinding secretName newMember opts) ;
       mret tt)
   else mret tt) ;;
  (if (0 <? length toDelete)%nat then
     emit (LogInfo ("Going to remove " +:+ q +:+ JS.join "," toDelete +:+ q
                    +:+ " from secret " +:+ q +:+ secretName +:+ q)) ;;
     forEach toDelete (fun deleteMember =>
       _ ← execCommand (execCommand_result W)
             (RemoveIamPolicyBinding secretName deleteMember opts) ;
       mret tt)
   else mret tt).

(** Lines 54-213: the callback run on every file, the unit of work of one
    secret. *)
Definition deployFile (existingSecrets : list ExistingSecret) (file : string) : M bool :=
  let secretName := secretNameOf file in
  if filteredOut secretName then mret true else
  fileContent ← ((fun d _ => (getFileContent W d file, d, [])) : M SecretFile) ;
  let isFileEncrypted := String.eqb (status (__gcp_metadata fileContent)) "encrypted" in
  (if isFileEncrypted then
     data ← lift (decryptFile W fileContent true) ;
     storeFile file (Decrypted data)
   else mret tt) ;;
  success ←
    match find (fun s => String.eqb (secret_name s) secretName) existingSecrets with
    | Some secretExists => updateSecret file secretName fileContent secretExists
    | None => createSecret file secretName fileContent
    end ;
  (if isFileEncrypted then storeFile file (Definition_ fileContent) else mret tt) ;;
  match serviceAccounts (__gcp_metadata fileContent) with
  | Some allowedServiceAccounts => manageServiceAccounts secretName allowedServiceAccounts
  | None => mret tt
  end ;;
  mret success.

(** Lines 47-50 *)
Definition shortName (s : ExistingSecret) : ExistingSecret :=
  {| secret_name := JS.split_pop "/secrets/" (secret_name s);
     secret_labels := secret_labels s |}.

(** [files.map(async (file) => ..)]: the callback has no [await], so each
    call runs to its end before the next file is taken; a throw inside it
    does not reach [map], it rejects the promise of that file. *)
Fixpoint mapAsync (f : string -> M bool) (files : list string)
    (d : disk) (h : list event) : list (outcome bool) * disk * list event :=
  match files with
  | [] => ([], d, [])
  | file :: rest =>
      let '(p, d1, e1) := f file d h in
      let '(ps, d2, e2) := mapAsync f rest d1 (h ++ e1) in
      (p :: ps, d2, e1 ++ e2)
  end.

(** [await Promise.all(promises)] on settled promises: the values, or the
    reason of the first rejected one. *)
Fixpoint promiseAll (promises : list (outcome bool)) : outcome (list bool) :=
  match promises with
  | [] => Returned []
  | Thrown err :: _ => Thrown err
  | Returned b :: rest =>
      match promiseAll rest with
      | Returned bs => Returned (b :: bs)
      | Thrown err => Thrown err
      end
  end.

(** Lines 37-217: the body of the [try]. *)
Definition tryBody (sourceRoot : string) : M bool :=
  listed ← execCommand (execCommand_secrets W) (SecretsList opts) ;
  let existingSecrets := map shortName listed in
  let files := getAllSecretFiles W sourceRoot in
  ((fun d h =>
    let '(promises, d', evs) := mapAsync (deployFile existingSecrets) files d h in
    match promiseAll promises with
    | Returned secretsCreated =>
        (Returned (length (List.filter id secretsCreated) =? length files)%nat, d', evs)
    | Thrown err => (Thrown err, d', evs)
    end) : M bool).

(** [deployExecutor]: the [success] field of its result, the files it
    leaves and the events it adds to the trace.  [sourceRoot] is what line
    33 reads from the context. *)
Definition deployExecutor (sourceRoot : string) (d : disk) (h : list event)
    : bool * disk * list event :=
  if isEncryptionKeySet W then
    match tryBody sourceRoot d h with
    | (Returned success, d', evs) => (success, d', evs)
    | (Thrown err, d', evs) =>
        (false, d',
         evs ++ [LogError ("Error happened trying to decrypt files: " +:+ err);
                 ConsoleError err])
    end
  else (true, d, []).

End Executor.

(** ** The phases of a unit of work

    Parts of [deployFile] and [manageServiceAccounts] under names of their
    own, for the statements below. *)

Section Phases.

Variable W : Collaborators.
Variable options : DeploySchema.

Let opts := getCommandOptions options.

(** One optional block of lines 185-209: a log line and a [forEach] of
    binding commands, when the list is not empty. *)
Definition bindingBlock (msg : string) (mk : string -> gcloud) (l : list string) : M unit :=
  if (0 <? length l)%nat then
    emit (LogInfo msg) ;;
    forEach l (fun x => _ ← execCommand (execCommand_result W) (mk x) ; mret tt)
  else mret tt.

(** The decrypt step of lines 70-73 went through: nothing to do for a
    file that is not encrypted, the decrypted content stored otherwise. *)
Definition decrypted (file : string) (fc : SecretFile) (d : disk)
    (e1 : list event) (d1 : disk) : Prop :=
  if String.eqb (status (__gcp_metadata fc)) "encrypted" then
    exists data, decryptFile W fc true = Returned data /\
      e1 = [Stored file (Decrypted data)] /\ d1 = <[file := Decrypted data]> d
  else e1 = [] /\ d1 = d.

(** Lines 76-154: update or create. *)
Definition reconcile (existing : list ExistingSecret) (file : string)
    (fc : SecretFile) : M bool :=
  match find (fun s => String.eqb (secret_name s) (secretNameOf W file)) existing with
  | Some secretExists => updateSecret W options file (secretNameOf W file) fc secretExists
  | None => createSecret W options file (secretNameOf W file) fc
  end.

(** Lines 156-159 *)
Definition restored (file : string) (fc : SecretFile) (d1 : disk) : list event * disk :=
  if String.eqb (status (__gcp_metadata fc)) "encrypted"
  then ([Stored file (Definition_ fc)], <[file := Definition_ fc]> d1)
  else ([], d1).

(** Lines 76-212: what follows the decrypt step. *)
Definition afterDecrypt (existing : list ExistingSecret) (file : string)
    (fc : SecretFile) : M bool :=
  success ← reconcile existing file fc ;
  (if String.eqb (status (__gcp_metadata fc)) "encrypted"
   then storeFile file (Definition_ fc) else mret tt) ;;
  match serviceAccounts (__gcp_metadata fc) with
  | Some allowed => manageServiceAccounts W options (secretNameOf W file) allowed
  | None => mret tt
  end ;;
  mret success.

Definition afterReconcile (file : string) (fc : SecretFile) (d1 : disk)
    (h2 : list event) (success : bool) (r : outcome bool) (d' : disk)
    (evs : list event) : Prop :=
  let '(e3, d3) := restored file fc d1 in
  d' = d3 /\
  match serviceAccounts (__gcp_metadata fc) with
  | None => r = Returned success /\ evs = e3
  | Some allowed =>
      exists r4 e4,
        manageServiceAccounts W options (secretNameOf W file) allowed d3
          (h2 ++ e3) = (r4, d3, e4) /\
        evs = e3 ++ e4 /\
        r = match r4 with
            | Returned _ => Returned success
            | Thrown err => Thrown err
            end
  end.

End Phases.

(** ** Reading traces *)

Definition is_create (e : event) : bool :=
  match e with Exec (SecretsCreate _ _ _ _) => true | _ => false end.

Definition is_addVersion (e : event) : bool :=
  match e with Exec (VersionsAdd _ _ _) => true | _ => false end.

Definition is_updateLabels (e : event) : bool :=
  match e with Exec (SecretsUpdate _ _ _) => true | _ => false end.

Definition is_retireVersion (e : event) : bool :=
  match e with Exec (VersionsRetire _ _ _ _) => true | _ => false end.

(** The operations on the secret itself: create, addVersion, updateLabels,
    retireVersion. *)
Definition is_secret_op (e : event) : bool :=
  is_create e || is_addVersion e || is_updateLabels e || is_retireVersion e.

(** The IAM calls: get-iam-policy, add-iam-policy-binding,
    remove-iam-policy-binding. *)
Definition is_iam (e : event) : bool :=
  match e with
  | Exec (GetIamPolicy _ _) | Exec (AddIamPolicyBinding _ _ _)
  | Exec (RemoveIamPolicyBinding _ _ _) => true
  | _ => false
  end.

(** The grants and revokes. *)
Definition is_binding_change (e : event) : bool :=
  match e with
  | Exec (AddIamPolicyBinding _ _ _) | Exec (RemoveIamPolicyBinding _ _ _) => true
  | _ => false
  end.

Definition is_stored (e : event) : bool :=
  match e with Stored _ _ => true | _ => false end.

(** A settled promise counts in [secretsCreated.filter(Boolean)] when it is
    fulfilled with [true]. *)
Definition succeeded (p : outcome bool) : bool :=
  match p with Returned true => true | _ => false end.

Definition info_or_binding_change (e : event) : Prop :=
  is_binding_change e = true \/ exists msg, e = LogInfo msg.

(** What the reconcile phase adds to the trace: operations on the secret
    and log lines. *)
Definition reconcile_event (e : event) : Prop :=
  is_secret_op e = true \/ (exists msg, e = LogInfo msg) \/ (exists msg, e = LogWarn msg).

(** What the restore and IAM phases add to the trace. *)
Definition restore_or_iam (file : string) (fc : SecretFile) (e : event) : Prop :=
  e = Stored file (Definition_ fc) \/ is_iam e = true \/ exists msg, e = LogInfo msg.

(** ** Reading a [JSON.stringify] escape back *)

Module JSONDecode.

Import JS.

Definition unhex (c : ascii) : nat :=
  let n := nat_of_ascii c in
  if (n <? 58)%nat then n - 48 else n - 87.

(** Reading one escaped character back. *)
Definition unquote_char (s : string) : option (ascii * string) :=
  match s with
  | EmptyString => None
  | String c rest =>
      if Ascii.eqb c dq then None
      else if Ascii.eqb c bs then
        match rest with
        | String e rest' =>
            if Ascii.eqb e "b" then Some (chr 8, rest')
            else if Ascii.eqb e "t" then Some (chr 9, rest')
            else if Ascii.eqb e "n" then Some (chr 10, rest')
            else if Ascii.eqb e "f" then Some (chr 12, rest')
            else if Ascii.eqb e "r" then Some (chr 13, rest')
            else if Ascii.eqb e "u" then
              match rest' with
              | String _ (String _ (String h1 (String h2 rest''))) =>
                  Some (chr (16 * unhex h1 + unhex h2), rest'')
              | _ => None
              end
            else Some (e, rest')
        | EmptyString => None
        end
      else Some (c, rest)
  end.

End JSONDecode.

(** ** Reading commands *)

(** The secret a command is about; the listing is about none. *)
Definition command_secret (c : gcloud) : option string :=
  match c with
  | SecretsList _ => None
  | SecretsUpdate n _ _ | VersionsAdd n _ _ | VersionsRetire _ _ n _
  | SecretsCreate n _ _ _ | GetIamPolicy n _ | AddIamPolicyBinding n _ _
  | RemoveIamPolicyBinding n _ _ => Some n
  end.

(** The result of [getCommandOptions] a command was built with. *)
Definition command_options (c : gcloud) : list string :=
  match c with
  | SecretsList o | SecretsUpdate _ _ o | VersionsAdd _ _ o | VersionsRetire _ _ _ o
  | SecretsCreate _ _ _ o | GetIamPolicy _ o | AddIamPolicyBinding _ _ o
  | RemoveIamPolicyBinding _ _ o => o
  end.

(** An event that belongs to the unit of work of [file]: a command about
    the secret of that file, built with the options of the run, or a store
    to that file; log lines are free. *)
Definition about (W : Collaborators) (options : DeploySchema) (file : string)
    (e : event) : Prop :=
  match e with
  | Exec c =>
      command_secret c = Some (secretNameOf W file) /\
      command_options c = getCommandOptions options
  | Stored f _ => f = file
  | _ => True
  end.

Definition is_log (e : event) : bool :=
  match e with
  | LogInfo _ | LogWarn _ | LogError _ | ConsoleError _ => true
  | _ => false
  end.

Definition is_list (e : event) : bool :=
  match e with Exec (SecretsList _) => true | _ => false end.

(** The kinds of operation on a secret, and the plan of a trace: the kinds
    of its commands on the secret, in the order they were run. *)
Inductive operation := Create | UpdateLabels | AddVersion | RetireVersion.

Definition operation_of (e : event) : option operation :=
  match e with
  | Exec (SecretsCreate _ _ _ _) => Some Create
  | Exec (SecretsUpdate _ _ _) => Some UpdateLabels
  | Exec (VersionsAdd _ _ _) => Some AddVersion
  | Exec (VersionsRetire _ _ _ _) => Some RetireVersion
  | _ => None
  end.

Definition plan (evs : list event) : list operation := omap operation_of evs.

(** The character [c] does not occur in [s]. *)
Definition no_char (c : ascii) (s : string) : Prop :=
  ~ In c (list_ascii_of_string s).


(** The decimal numeral of [n], the way version numbers are printed. *)
Definition decimal (n : nat) : string := NilEmpty.string_of_uint (Nat.to_uint n).

(** The grants and the revokes, apart. *)
Definition is_grant (e : event) : bool :=
  match e with Exec (AddIamPolicyBinding _ _ _) => true | _ => false end.

Definition is_revoke (e : event) : bool :=
  match e with Exec (RemoveIamPolicyBinding _ _ _) => true | _ => false end.

(** ** A concrete workspace *)

Module Scenario.

(** Two definition files: an encrypted one with labels and service
    accounts, and a plain one without. *)
Definition dbFile : SecretFile :=
  {| payload := "c2VjcmV0";
     __gcp_metadata :=
       {| status := "encrypted";
          labels := ["a=1"; "b=2"];
          serviceAccounts := Some ["sa:x"; "sa:y"];
          onUpdateBehavior := None |} |}.

Definition apiFile : SecretFile :=
  {| payload := "token";
     __gcp_metadata :=
       {| status := "decrypted";
          labels := [];
          serviceAccounts := None;
          onUpdateBehavior := Some "none" |} |}.

Definition files : disk :=
  {[ "secrets/db.json" := Definition_ dbFile;
     "secrets/api.json" := Definition_ apiFile ]}.

Definition readDefinition (d : disk) (file : string) : outcome SecretFile :=
  match d !! file with
  | Some (Definition_ c) => Returned c
  | _ => Thrown "not a secret definition"
  end.

(** The remote service knows [db], with the labels of [dbFile] in another
    order, and one accessor binding. *)
Definition listed : list ExistingSecret :=
  [ {| secret_name := "projects/1/secrets/db";
       secret_labels := Some [("b", "2"); ("a", "1")] |} ].

Definition policy : option ExistingServiceAccounts :=
  Some {| bindings := Some [ {| members := ["sa:y"; "sa:z"];
                                role := accessorRole |} ] |}.

(** A workspace whose listing and version-add calls answer as given;
    every other command succeeds. *)
Definition world (listing : outcome (list ExistingSecret))
    (versionAdd : outcome string) : Collaborators :=
  {| isEncryptionKeySet := true;
     getAllSecretFiles := fun _ => ["secrets/db.json"; "secrets/api.json"];
     getFileName := JS.split_pop "/";
     getFileContent := readDefinition;
     decryptFile := fun c _ => Returned ("plain:" +:+ payload c);
     yellow := fun s => s;
     execCommand_secrets := fun _ => listing;
     execCommand_version := fun _ => versionAdd;
     execCommand_policy := fun _ => Returned policy;
     execCommand_result := fun _ => Returned true |}.

Definition healthy : Collaborators :=
  world (Returned listed) (Returned "projects/1/secrets/db/versions/7").

Definition versionAddFails : Collaborators :=
  world (Returned listed) (Thrown "gcloud: PERMISSION_DENIED").

Definition listingFails : Collaborators :=
  world (Thrown "gcloud: not authenticated") (Returned "unused").

Definition existing : list ExistingSecret := map shortName listed.

(** The mirror image: [db] declared with its labels in the order [b, a],
    against a remote secret whose label object has its keys in
    alphabetical order. *)
Definition dbFileReversed : SecretFile :=
  {| payload := "c2VjcmV0";
     __gcp_metadata :=
       {| status := "decrypted";
          labels := ["b=2"; "a=1"];
          serviceAccounts := None;
          onUpdateBehavior := Some "none" |} |}.

Definition filesReversed : disk :=
  {[ "secrets/db.json" := Definition_ dbFileReversed ]}.

Definition alphabetical : list ExistingSecret :=
  [ {| secret_name := "db"; secret_labels := Some [("a", "1"); ("b", "2")] |} ].

Definition acme : DeploySchema := {| project := Some "acme"; secret := None |}.

Definition onlyApi : DeploySchema := {| project := None; secret := Some "api" |}.

Definition onlyOther : DeploySchema := {| project := None; secret := Some "other" |}.

End Scenario.

(** A second workspace: nothing exists remotely and the create command
    reports failure; every other command succeeds. *)
Module Scenario2.

Definition createRefused : Collaborators :=
  {| isEncryptionKeySet := true;
     getAllSecretFiles := fun _ => ["secrets/db.json"; "secrets/api.json"];
     getFileName := JS.split_pop "/";
     getFileContent := Scenario.readDefinition;
     decryptFile := fun c _ => Returned ("plain:" +:+ payload c);
     yellow := fun s => s;
     execCommand_secrets := fun _ => Returned [];
     execCommand_version := fun _ => Returned "projects/1/secrets/db/versions/1";
     execCommand_policy := fun _ => Returned Scenario.policy;
     execCommand_result := fun h =>
       match List.last h (LogInfo EmptyString) with
       | Exec (SecretsCreate _ _ _ _) => Returned false
       | _ => Returned true
       end |}.




End Scenario2.

(** Unfolding one layer of the monad. *)
Ltac run :=
  unfold mbind, M_bind, mret, M_ret, emit, execCommand, storeFile, lift;
  cbv beta iota zeta; rewrite <- ?app_assoc; cbn [app].

Ltac run_in H :=
  unfold mbind, M_bind, mret, M_ret, emit, execCommand, storeFile, lift in H;
  cbv beta iota zeta in H; rewrite <- ?app_assoc in H; cbn [app] in H.

(** * Facts *)

(** ** The built-ins on examples *)

Example split_dots : JS.split "." "db.prod.json" = ["db"; "prod"; "json"].
Proof. reflexivity. Qed.

Example split_overlap :
  JS.split "/secrets/" "p/secrets/secrets/" = ["p"; "secrets/"].
Proof. reflexivity. Qed.

Example split_pop_version :
  JS.split_pop "/versions/" "projects/1/secrets/db/versions/7" = "7".
Proof. reflexivity. Qed.

Example parseInt_seven : JS.parseInt10 "7" = JS.Num 7.
Proof. reflexivity. Qed.

Example parseInt_latest : JS.parseInt10 "latest" = JS.NaN.
Proof. reflexivity. Qed.

(** [2^53 + 1] is no double: it is read as [2^53], and one less is
    [2^53 - 1]. *)
Example parseInt_rounds :
  JS.parseInt10 "9007199254740993" = JS.Num 9007199254740992 /\
  JS.minus (JS.parseInt10 "9007199254740993") (JS.Num 1) = JS.Num 9007199254740991.
Proof. split; reflexivity. Qed.

(** A no-break space (U+00A0) before the digits is skipped, a zero-width
    space (U+200B) is not. *)
Example parseInt_white_space :
  JS.parseInt10 (String (JS.chr 194) (String (JS.chr 160) "12")) = JS.Num 12 /\
  JS.parseInt10 (String (JS.chr 226) (String (JS.chr 128) (String (JS.chr 139) "12")))
    = JS.NaN.
Proof. split; reflexivity. Qed.

Example stringify_two :
  JS.stringify ["a=1"; "b=2"]
  = "[" +:+ JS.str1 JS.dq +:+ "a=1" +:+ JS.str1 JS.dq +:+ ","
        +:+ JS.str1 JS.dq +:+ "b=2" +:+ JS.str1 JS.dq +:+ "]".
Proof. reflexivity. Qed.

(** ** Basic facts *)

Lemma bind_run {A B} (m : M A) (k : A -> M B) d h :
  (m ≫= k) d h =
  match m d h with
  | (Returned a, d1, e1) =>
      let '(r, d2, e2) := k a d1 (h ++ e1) in (r, d2, e1 ++ e2)
  | (Thrown err, d1, e1) => (Thrown err, d1, e1)
  end.
Proof. reflexivity. Qed.

Lemma ret_run {A} (a : A) d h : (mret a : M A) d h = (Returned a, d, []).
Proof. reflexivity. Qed.

Lemma includes_In l x : JS.includes l x = true <-> In x l.
Proof.
  unfold JS.includes. rewrite existsb_exists. split.
  - intros [y [Hy He]]. apply String.eqb_eq in He. now subst.
  - intros Hx. exists x. split; [assumption | apply String.eqb_refl].
Qed.

Lemma includes_not_In l x : negb (JS.includes l x) = true <-> ~ In x l.
Proof.
  rewrite negb_true_iff, <- includes_In.
  destruct (JS.includes l x); split; congruence.
Qed.

Lemma find_absent (existing : list ExistingSecret) secretName :
  (forall s, In s existing -> secret_name s <> secretName) ->
  find (fun s => String.eqb (secret_name s) secretName) existing = None.
Proof.
  intros Hno. destruct (find _ existing) as [s|] eqn:Hf; [|reflexivity].
  apply find_some in Hf. destruct Hf as [Hin He].
  apply String.eqb_eq in He. now apply Hno in Hin.
Qed.

(** ** [JSON.stringify] tells arrays of strings apart *)

Module JSONFacts.

Import JS JSONDecode.

Lemma append_assoc (a b c : string) : (a +:+ b) +:+ c = a +:+ (b +:+ c).
Proof.
  induction a as [|x a IH]; [reflexivity | exact (f_equal (String x) IH)].
Qed.

Lemma append_nil_l (a : string) : EmptyString +:+ a = a.
Proof. reflexivity. Qed.

Lemma unquote_quote_char (c : ascii) (rest : string) :
  unquote_char (quote_char c +:+ rest) = Some (c, rest).
Proof. destruct c as [[] [] [] [] [] [] [] []]; reflexivity. Qed.

Lemma unquote_closing (rest : string) : unquote_char (String dq rest) = None.
Proof. reflexivity. Qed.

Lemma quote_body_inj (s1 s2 r1 r2 : string) :
  quote_body s1 +:+ String dq r1 = quote_body s2 +:+ String dq r2 ->
  s1 = s2 /\ r1 = r2.
Proof.
  revert s2. induction s1 as [|c1 s1 IH]; intros [|c2 s2] Heq;
    cbn [quote_body] in Heq; rewrite ?append_nil_l in Heq.
  - inversion Heq. now split.
  - rewrite append_assoc in Heq. apply (f_equal unquote_char) in Heq.
    rewrite unquote_quote_char, unquote_closing in Heq. discriminate.
  - rewrite append_assoc in Heq. apply (f_equal unquote_char) in Heq.
    rewrite unquote_quote_char, unquote_closing in Heq. discriminate.
  - rewrite !append_assoc in Heq. apply (f_equal unquote_char) in Heq.
    rewrite !unquote_quote_char in Heq. inversion Heq; subst.
    destruct (IH _ H1) as [-> ->]. now split.
Qed.

Lemma quote_app (s r : string) :
  quote s +:+ r = String dq (quote_body s +:+ String dq r).
Proof.
  exact (f_equal (String dq) (append_assoc (quote_body s) (String dq EmptyString) r)).
Qed.

Lemma quote_inj (s1 s2 r1 r2 : string) :
  quote s1 +:+ r1 = quote s2 +:+ r2 -> s1 = s2 /\ r1 = r2.
Proof.
  rewrite !quote_app. intros Heq. inversion Heq. now apply quote_body_inj.
Qed.

Lemma stringify_items_cons (x : string) (l : list string) (r : string) :
  stringify_items (x :: l) +:+ r =
  quote x +:+ match l with
              | [] => r
              | _ => "," +:+ stringify_items l +:+ r
              end.
Proof.
  destruct l as [|y l]; [reflexivity|].
  cbn [stringify_items]. now rewrite !append_assoc.
Qed.

Lemma stringify_items_inj (l1 l2 : list string) :
  stringify_items l1 +:+ "]" = stringify_items l2 +:+ "]" -> l1 = l2.
Proof.
  revert l2. induction l1 as [|x1 l1 IH]; intros [|x2 l2] Heq.
  - reflexivity.
  - rewrite stringify_items_cons, quote_app in Heq. discriminate.
  - rewrite stringify_items_cons, quote_app in Heq. discriminate.
  - rewrite !stringify_items_cons in Heq. apply quote_inj in Heq.
    destruct Heq as [-> Hrest]. f_equal.
    destruct l1 as [|y1 l1], l2 as [|y2 l2]; try discriminate; [reflexivity|].
    apply IH. now inversion Hrest.
Qed.

Lemma stringify_inj (l1 l2 : list string) :
  stringify l1 = stringify l2 -> l1 = l2.
Proof.
  unfold stringify. intros Heq. inversion Heq. now apply stringify_items_inj.
Qed.

End JSONFacts.

(** ** Splitting names and reading numerals *)

Lemma append_cons (c : ascii) (a b : string) : String c a +:+ b = String c (a +:+ b).
Proof. reflexivity. Qed.

Lemma append_empty_r (a : string) : a +:+ EmptyString = a.
Proof.
  induction a as [|c a IH]; [reflexivity|]. rewrite append_cons. now rewrite IH.
Qed.

Lemma append_str1 (cur : string) (c : ascii) (s : string) :
  (cur +:+ JS.str1 c) +:+ s = cur +:+ String c s.
Proof. now rewrite JSONFacts.append_assoc. Qed.

Lemma split_from_nonempty sep s skip cur : JS.split_from sep s skip cur <> [].
Proof.
  revert skip cur. induction s as [|c s IH]; intros skip cur; cbn [JS.split_from].
  - discriminate.
  - destruct skip; [|apply IH]. destruct (String.prefix sep (String c s)); [discriminate | apply IH].
Qed.

Lemma join_cons sep p l : l <> [] -> JS.join sep (p :: l) = p +:+ sep +:+ JS.join sep l.
Proof. destruct l; [congruence | reflexivity]. Qed.

Lemma prefix_char (c x : ascii) (s : string) :
  String.prefix (JS.str1 c) (String x s) = if ascii_dec c x then true else false.
Proof.
  unfold JS.str1. cbn [String.prefix].
  destruct (ascii_dec c x); [|reflexivity]. now destruct s.
Qed.

(** [split] on a one-character separator and [join] on the same
    separator undo each other. *)
Lemma join_split_from_char (c : ascii) (s cur : string) :
  JS.join (JS.str1 c) (JS.split_from (JS.str1 c) s 0 cur) = cur +:+ s.
Proof.
  revert cur. induction s as [|x s IH]; intros cur; cbn [JS.split_from].
  - cbn [JS.join]. now rewrite append_empty_r.
  - rewrite prefix_char. destruct (ascii_dec c x) as [<- | Hne].
    + rewrite join_cons by apply split_from_nonempty.
      change (String.length (JS.str1 c) - 1)%nat with 0%nat.
      rewrite IH. reflexivity.
    + rewrite IH. apply append_str1.
Qed.

Lemma split_from_char_free (c : ascii) (s cur : string) :
  no_char c s -> JS.split_from (JS.str1 c) s 0 cur = [cur +:+ s].
Proof.
  revert cur. induction s as [|x s IH]; intros cur Hfree; cbn [JS.split_from].
  - now rewrite append_empty_r.
  - rewrite prefix_char. destruct (ascii_dec c x) as [<- | Hne].
    + exfalso. apply Hfree. now left.
    + rewrite IH; [now rewrite append_str1|].
      intros Hin. apply Hfree. now right.
Qed.

Lemma split_from_char_last (c : ascii) (a t cur : string) :
  no_char c t ->
  JS.split_from (JS.str1 c) (a +:+ String c t) 0 cur
  = JS.split_from (JS.str1 c) a 0 cur ++ [t].
Proof.
  intros Hfree. revert cur. induction a as [|x a IH]; intros cur.
  - change (EmptyString +:+ String c t) with (String c t).
    cbn [JS.split_from]. rewrite prefix_char.
    destruct (ascii_dec c c); [|congruence].
    change (String.length (JS.str1 c) - 1)%nat with 0%nat.
    now rewrite split_from_char_free.
  - rewrite append_cons. cbn [JS.split_from]. rewrite !prefix_char.
    destruct (ascii_dec c x) as [<- | Hne].
    + change (String.length (JS.str1 c) - 1)%nat with 0%nat.
      now rewrite IH.
    + apply IH.
Qed.

Lemma prefix_self (a t : string) : String.prefix a (a +:+ t) = true.
Proof.
  induction a as [|c a IH]; [now destruct t|].
  rewrite append_cons. cbn [String.prefix].
  destruct (ascii_dec c c); [exact IH | congruence].
Qed.

Lemma split_from_skip sep (a t cur : string) :
  JS.split_from sep (a +:+ t) (String.length a) cur = JS.split_from sep t 0 cur.
Proof.
  induction a as [|c a IH]; [reflexivity|].
  rewrite append_cons. exact IH.
Qed.

Lemma index_cons sep (x : ascii) (s : string) :
  String.index 0 sep (String x s) =
  if String.prefix sep (String x s) then Some 0%nat
  else match String.index 0 sep s with
       | Some n => Some (S n)
       | None => None
       end.
Proof. reflexivity. Qed.

Lemma split_from_absent (c : ascii) (sep s cur : string) :
  String.index 0 (String c sep) s = None ->
  JS.split_from (String c sep) s 0 cur = [cur +:+ s].
Proof.
  revert cur. induction s as [|x s IH]; intros cur Hnone.
  - cbn [JS.split_from]. now rewrite append_empty_r.
  - rewrite index_cons in Hnone. cbn [JS.split_from].
    destruct (String.prefix (String c sep) (String x s)); [discriminate|].
    destruct (String.index 0 (String c sep) s); [discriminate|].
    rewrite IH by reflexivity. now rewrite append_str1.
Qed.

Lemma split_from_first (c : ascii) (sep p t cur : string) :
  String.index 0 (String c sep) (p +:+ String c sep +:+ t) = Some (String.length p) ->
  JS.split_from (String c sep) (p +:+ String c sep +:+ t) 0 cur
  = (cur +:+ p) :: JS.split_from (String c sep) t 0 EmptyString.
Proof.
  revert cur. induction p as [|x p IH]; intros cur Hfirst.
  - change (EmptyString +:+ String c sep +:+ t) with (String c (sep +:+ t)).
    cbn [JS.split_from].
    change (String c (sep +:+ t)) with (String c sep +:+ t). rewrite prefix_self.
    rewrite append_empty_r. f_equal.
    change (String.length (String c sep) - 1)%nat with (String.length sep - 0)%nat.
    rewrite Nat.sub_0_r. apply split_from_skip.
  - rewrite append_cons in Hfirst |- *. rewrite index_cons in Hfirst.
    cbn [JS.split_from].
    destruct (String.prefix (String c sep) (String x (p +:+ String c sep +:+ t)));
      [discriminate|].
    destruct (String.index 0 (String c sep) (p +:+ String c sep +:+ t)) as [n|] eqn:Hn;
      [|discriminate].
    cbn [String.length] in Hfirst. inversion Hfirst; subst n.
    rewrite (IH _ eq_refl). now rewrite append_str1.
Qed.

(** Where the first occurrence of the separator is the only one, [split]
    gives the two sides of it. *)
Lemma split_at_only_occurrence (c : ascii) (sep p t : string) :
  String.index 0 (String c sep) (p +:+ String c sep +:+ t) = Some (String.length p) ->
  String.index 0 (String c sep) t = None ->
  JS.split (String c sep) (p +:+ String c sep +:+ t) = [p; t].
Proof.
  intros Hfirst Hnone. unfold JS.split.
  rewrite (split_from_first _ _ _ _ _ Hfirst), (split_from_absent _ _ _ _ Hnone).
  reflexivity.
Qed.

Lemma digits_of_uint (u : Decimal.uint) (acc : nat) :
  fold_left (fun a d => 10 * a + d)%Z (JS.digits (NilEmpty.string_of_uint u)) (Z.of_nat acc)
  = Z.of_nat (Nat.of_uint_acc u acc).
Proof.
  revert acc. induction u as [|u IH|u IH|u IH|u IH|u IH|u IH|u IH|u IH|u IH|u IH];
    intros acc; [reflexivity|..];
    cbn [NilEmpty.string_of_uint Nat.of_uint_acc];
    change (JS.digits (String ?c ?s)) with
      (match JS.digit c with Some d => d :: JS.digits s | None => [] end);
    match goal with
    | |- context [JS.digit ?c] =>
        let v := eval vm_compute in (JS.digit c) in change (JS.digit c) with v
    end;
    rewrite <- IH; cbn [fold_left]; f_equal;
    rewrite Nat.tail_mul_spec; lia.
Qed.

Lemma decimal_nonempty (n : nat) : Nat.to_uint n <> Decimal.Nil.
Proof.
  intros Hnil. pose proof (DecimalNat.Unsigned.of_to n) as Hn.
  rewrite Hnil in Hn. cbn in Hn. subst n. discriminate.
Qed.

Lemma numberValue_exact (z : Z) :
  (Z.abs z <= 2 ^ 53)%Z -> JS.numberValue z = JS.Num z.
Proof.
  intros Hz. apply Z.leb_le in Hz. unfold JS.numberValue. cbv zeta. now rewrite Hz.
Qed.

(** [parseInt] reads a decimal numeral back, up to the rounding of large
    ones. *)
Lemma parseInt10_decimal (n : nat) :
  JS.parseInt10 (decimal n) = JS.numberValue (Z.of_nat n).
Proof.
  unfold decimal. pose proof (decimal_nonempty n) as Hne.
  pose proof (digits_of_uint (Nat.to_uint n) 0) as Hdigits.
  change (Nat.of_uint_acc (Nat.to_uint n) 0) with (Nat.of_uint (Nat.to_uint n)) in Hdigits.
  rewrite DecimalNat.Unsigned.of_to in Hdigits.
  destruct (Nat.to_uint n) as [|u|u|u|u|u|u|u|u|u|u]; [congruence|..];
    unfold JS.parseInt10; cbn [NilEmpty.string_of_uint] in *;
    change (JS.trim_start (String ?c ?s)) with (String c s);
    cbv beta iota;
    match goal with
    | |- context [Ascii.eqb ?c "-"] => change (Ascii.eqb c "-") with false
    end;
    match goal with
    | |- context [Ascii.eqb ?c "+"] => change (Ascii.eqb c "+") with false
    end;
    cbv beta iota;
    change (JS.digits (String ?c ?s)) with
      (match JS.digit c with Some d => d :: JS.digits s | None => [] end) in *;
    match goal with
    | |- context [JS.digit ?c] =>
        let v := eval vm_compute in (JS.digit c) in change (JS.digit c) with v in *
    end;
    cbv beta iota; unfold JS.mathInt;
    change (Z.of_nat 0) with 0%Z in Hdigits; rewrite Hdigits; f_equal; lia.
Qed.

Lemma index_versions_decimal (u : Decimal.uint) :
  String.index 0 "/versions/" (NilEmpty.string_of_uint u) = None.
Proof.
  induction u as [|u IH|u IH|u IH|u IH|u IH|u IH|u IH|u IH|u IH|u IH];
    [reflexivity|..];
    cbn [NilEmpty.string_of_uint]; rewrite index_cons, IH; reflexivity.
Qed.

(** Up to [2^53], the numeral of [n] is read as [n] and [n - 1] is the
    number before it. *)
Lemma version_before (n : nat) :
  (Z.of_nat n <= 2 ^ 53)%Z ->
  JS.minus (JS.parseInt10 (decimal n)) (JS.Num 1) = JS.Num (Z.of_nat n - 1).
Proof.
  intros Hn. change (2 ^ 53)%Z with 9007199254740992%Z in Hn.
  rewrite parseInt10_decimal, numberValue_exact
    by (change (2 ^ 53)%Z with 9007199254740992%Z; lia).
  cbn [JS.minus]. apply numberValue_exact.
  change (2 ^ 53)%Z with 9007199254740992%Z. lia.
Qed.

(** Where the first [/versions/] of a name is followed by a numeral, that
    numeral is the last piece of the name. *)
Lemma split_pop_numeral (p : string) (n : nat) :
  String.index 0 "/versions/" (p +:+ "/versions/" +:+ decimal n)
    = Some (String.length p) ->
  JS.split_pop "/versions/" (p +:+ "/versions/" +:+ decimal n) = decimal n.
Proof.
  intros Hfirst. unfold JS.split_pop.
  now rewrite (split_at_only_occurrence "/" "versions/" p (decimal n) Hfirst
                 (index_versions_decimal _)).
Qed.

(** ** The blocks of the executor, one by one *)

Section Blocks.

Variable W : Collaborators.
Variable options : DeploySchema.

Let opts := getCommandOptions options.

(** The commands of a [forEach] over members are issued in order, up to
    the first one that throws. *)
Lemma forEach_exec (mk : string -> gcloud) (l : list string) d h r d' evs :
  forEach l (fun x => _ ← execCommand (execCommand_result W) (mk x) ; mret tt) d h
    = (r, d', evs) ->
  d' = d /\
  exists rest,
    map (fun x => Exec (mk x)) l = evs ++ rest /\
    (forall u, r = Returned u -> rest = []).
Proof.
  revert h r d' evs. induction l as [|x l IH]; intros h r d' evs Hrun.
  - cbn in Hrun. inversion Hrun; subst. split; [reflexivity|].
    exists []. split; [reflexivity | reflexivity].
  - cbn [forEach] in Hrun. rewrite bind_run in Hrun.
    rewrite bind_run in Hrun. unfold execCommand in Hrun at 1.
    destruct (execCommand_result W (h ++ [Exec (mk x)])) as [b|err].
    + rewrite ret_run in Hrun. cbn [app] in Hrun.
      destruct (forEach l _ d _) as [[r2 d2] e2] eqn:Hrest.
      apply IH in Hrest. destruct Hrest as [-> [rest [Hmap Hret]]].
      inversion Hrun; subst. split; [reflexivity|].
      exists rest. split.
      * cbn. now rewrite Hmap.
      * exact Hret.
    + inversion Hrun; subst. split; [reflexivity|].
      exists (map (fun x => Exec (mk x)) l). split; [reflexivity|].
      intros u Hu. discriminate.
Qed.

Lemma filter_binding_changes_map (mk : string -> gcloud) l :
  (forall x, is_binding_change (Exec (mk x)) = true) ->
  List.filter is_binding_change (map (fun x => Exec (mk x)) l)
    = map (fun x => Exec (mk x)) l.
Proof.
  intros Hmk. induction l as [|x l IH]; [reflexivity|].
  cbn [map List.filter]. rewrite Hmk. now rewrite IH.
Qed.

Lemma Forall_binding_changes_map (mk : string -> gcloud) l :
  (forall x, is_binding_change (Exec (mk x)) = true) ->
  Forall info_or_binding_change (map (fun x => Exec (mk x)) l).
Proof.
  intros Hmk. apply List.Forall_forall. intros e He.
  apply in_map_iff in He. destruct He as [x [<- _]]. left. apply Hmk.
Qed.

Lemma bindingBlock_run msg mk l d h r d' evs :
  (forall x, is_binding_change (Exec (mk x)) = true) ->
  bindingBlock W msg mk l d h = (r, d', evs) ->
  d' = d /\ Forall info_or_binding_change evs /\
  exists rest,
    map (fun x => Exec (mk x)) l = List.filter is_binding_change evs ++ rest /\
    (forall u, r = Returned u -> rest = []).
Proof.
  intros Hmk Hrun. unfold bindingBlock in Hrun.
  destruct l as [|x l].
  - cbn in Hrun. inversion Hrun; subst.
    repeat split; [constructor|]. exists []. split; reflexivity.
  - cbn [length Nat.ltb Nat.leb] in Hrun. rewrite bind_run in Hrun.
    unfold emit in Hrun at 1.
    destruct (forEach (x :: l) _ d (h ++ [LogInfo msg])) as [[r2 d2] e2] eqn:Hloop.
    apply forEach_exec in Hloop. destruct Hloop as [-> [rest [Hmap Hret]]].
    inversion Hrun; subst. split; [reflexivity|].
    assert (Hall : Forall info_or_binding_change (e2 ++ rest)).
    { rewrite <- Hmap. now apply Forall_binding_changes_map. }
    apply List.Forall_app in Hall. destruct Hall as [He2 _].
    split.
    + constructor; [right; eauto | exact He2].
    + exists rest. split; [|exact Hret].
      cbn [app List.filter is_binding_change].
      pose proof (filter_binding_changes_map mk (x :: l) Hmk) as Hf.
      rewrite Hmap in Hf. rewrite List.filter_app in Hf.
      apply (f_equal (@length event)) in Hf as Hlen.
      rewrite !length_app in Hlen.
      pose proof (List.filter_length_le is_binding_change e2) as L1.
      pose proof (List.filter_length_le is_binding_change rest) as L2.
      assert (Hl2 : length (List.filter is_binding_change e2) = length e2) by lia.
      apply app_inj_1 in Hf; [|exact Hl2]. destruct Hf as [Hf _].
      rewrite Hmap. now rewrite Hf.
Qed.

Lemma manageServiceAccounts_blocks secretName allowed :
  manageServiceAccounts W options secretName allowed =
  (policy ← execCommand (execCommand_policy W) (GetIamPolicy secretName opts) ;
   let existing := existingServiceAccountsOf policy in
   let toDelete := serviceAccountsToDelete allowed existing in
   let toAdd := serviceAccountsToAdd allowed existing in
   bindingBlock W
     ("Going to add " +:+ q +:+ JS.join "," toAdd +:+ q
        +:+ " to secret " +:+ q +:+ secretName +:+ q)
     (fun m => AddIamPolicyBinding secretName m opts) toAdd ;;
   bindingBlock W
     ("Going to remove " +:+ q +:+ JS.join "," toDelete +:+ q
        +:+ " from secret " +:+ q +:+ secretName +:+ q)
     (fun m => RemoveIamPolicyBinding secretName m opts) toDelete).
Proof. reflexivity. Qed.

(** The IAM block: the policy is fetched first; the files are not
    touched; what follows are log lines, grants and revokes, and the
    grants and revokes issued are an initial part of the planned ones,
    all of them when the block returns. *)
Lemma manageServiceAccounts_run secretName allowed d h r d' evs :
  manageServiceAccounts W options secretName allowed d h = (r, d', evs) ->
  d' = d /\
  exists tail,
    evs = Exec (GetIamPolicy secretName opts) :: tail /\
    Forall info_or_binding_change tail /\
    match execCommand_policy W (h ++ [Exec (GetIamPolicy secretName opts)]) with
    | Thrown err => tail = [] /\ r = Thrown err
    | Returned policy =>
        let existing := existingServiceAccountsOf policy in
        exists rest,
          map (fun m => Exec (AddIamPolicyBinding secretName m opts))
              (serviceAccountsToAdd allowed existing)
          ++ map (fun m => Exec (RemoveIamPolicyBinding secretName m opts))
              (serviceAccountsToDelete allowed existing)
          = List.filter is_binding_change tail ++ rest /\
          (forall u, r = Returned u -> rest = [])
    end.
Proof.
  rewrite manageServiceAccounts_blocks, bind_run. unfold execCommand at 1.
  destruct (execCommand_policy W _) as [policy|err].
  - cbv zeta. rewrite bind_run.
    destruct (bindingBlock W _ _ (serviceAccountsToAdd _ _) d _)
      as [[r1 d1] e1] eqn:Hadd.
    apply bindingBlock_run in Hadd; [|reflexivity].
    destruct Hadd as [-> [Hall1 [rest1 [Hmap1 Hret1]]]].
    destruct r1 as [[]|err].
    + destruct (bindingBlock W _ _ (serviceAccountsToDelete _ _) d _)
        as [[r2 d2] e2] eqn:Hdel.
      apply bindingBlock_run in Hdel; [|reflexivity].
      destruct Hdel as [-> [Hall2 [rest2 [Hmap2 Hret2]]]].
      intros Hrun. inversion Hrun; subst. split; [reflexivity|].
      exists (e1 ++ e2). split; [reflexivity|].
      split; [now apply List.Forall_app|].
      exists rest2. rewrite (Hret1 tt eq_refl), app_nil_r in Hmap1.
      split; [|exact Hret2].
      rewrite List.filter_app, Hmap1, Hmap2. now rewrite app_assoc.
    + intros Hrun. inversion Hrun; subst. split; [reflexivity|].
      exists e1. split; [reflexivity|]. split; [exact Hall1|].
      eexists. split.
      * rewrite Hmap1, <- app_assoc. reflexivity.
      * intros u Hu. discriminate.
  - intros Hrun. inversion Hrun; subst. split; [reflexivity|].
    exists []. repeat split. constructor.
Qed.

(** Lines 137-154: the create block issues its log line and the create
    command, [success] is what the command reports. *)
Lemma createSecret_run file secretName fc d h r d' evs :
  createSecret W options file secretName fc d h = (r, d', evs) ->
  d' = d /\
  exists msg,
    let create := Exec (SecretsCreate secretName file
      (addLabelsIfNeeded (labels (__gcp_metadata fc)) true) opts) in
    evs = [LogInfo msg; create] /\
    r = execCommand_result W (h ++ [LogInfo msg; create]).
Proof.
  unfold createSecret. run.
  destruct (execCommand_result W _) as [b|err] eqn:Hcall;
    intros Hrun; inversion Hrun; subst; (split; [reflexivity|]);
    eexists; (split; [reflexivity|]); exact (eq_sym Hcall).
Qed.

Lemma labelStep_run secretName fc se d h r d' evs :
  labelStep W options secretName fc se d h = (r, d', evs) ->
  let update := Exec (SecretsUpdate secretName
    (addLabelsIfNeeded (labels (__gcp_metadata fc)) false) opts) in
  d' = d /\
  if labelsDiffer se fc then
    exists msg, evs = [LogInfo msg; update] /\
      match execCommand_result W (h ++ evs) with
      | Returned _ => r = Returned tt
      | Thrown err => r = Thrown err
      end
  else evs = [] /\ r = Returned tt.
Proof.
  unfold labelStep. destruct (labelsDiffer se fc); run.
  - intros Hrun.
    destruct (execCommand_result W _) as [b|err] eqn:Hcall;
      inversion Hrun; subst; (split; [reflexivity|]);
      eexists; (split; [reflexivity|]); cbn [app]; now rewrite Hcall.
  - intros Hrun. now inversion Hrun.
Qed.

Lemma updateBehavior_cases (ub : string) :
  (negb (String.eqb ub "none") = false /\ ub = "none")
  \/ (negb (String.eqb ub "none") = true /\
      JS.includes ["destroy"; "disable"] ub = true /\
      (ub = "destroy" \/ ub = "disable"))
  \/ (negb (String.eqb ub "none") = true /\
      JS.includes ["destroy"; "disable"] ub = false /\
      ub <> "none" /\ ub <> "destroy" /\ ub <> "disable").
Proof.
  unfold JS.includes. cbn [existsb].
  destruct (String.eqb_spec ub "none") as [E|E]; [left; now split|].
  right. destruct (String.eqb_spec ub "destroy") as [E1|E1]; [left; auto|].
  destruct (String.eqb_spec ub "disable") as [E2|E2]; [left; auto|].
  right. auto.
Qed.

Lemma retireStep_run secretName fc name d h r d' evs :
  retireStep W options secretName fc name d h = (r, d', evs) ->
  let ub := updateBehaviorOf fc in
  let previousVersion :=
    JS.minus (JS.parseInt10 (JS.split_pop "/versions/" name)) (JS.Num 1) in
  let retire := Exec (VersionsRetire ub previousVersion secretName opts) in
  d' = d /\
  ((ub = "none" /\ evs = [] /\ r = Returned tt)
   \/
   ((ub = "destroy" \/ ub = "disable") /\
    exists msg, evs = [LogInfo msg; retire] /\
      match execCommand_result W (h ++ evs) with
      | Returned _ => r = Returned tt
      | Thrown err => r = Thrown err
      end)
   \/
   (ub <> "none" /\ ub <> "destroy" /\ ub <> "disable" /\
    (exists msg, evs = [LogWarn msg]) /\ r = Returned tt)).
Proof.
  unfold retireStep. cbv zeta.
  destruct (updateBehavior_cases (updateBehaviorOf fc))
    as [[-> Hn] | [[-> [-> Hd]] | [-> [-> Hi]]]]; run; intros Hrun.
  - inversion Hrun. split; [reflexivity|]. left. auto.
  - destruct (execCommand_result W _) as [b|err] eqn:Hcall;
      inversion Hrun; subst; (split; [reflexivity|]);
      right; left; (split; [exact Hd|]);
      eexists; (split; [reflexivity|]); cbn [app]; now rewrite Hcall.
  - inversion Hrun. split; [reflexivity|]. right; right.
    destruct Hi as [? [? ?]]. repeat split; eauto.
Qed.

(** The update block is its three steps in a row, stopping at the first
    that throws. *)
Lemma updateSecret_run file secretName fc se d h r d' evs :
  updateSecret W options file secretName fc se d h = (r, d', evs) ->
  let add := Exec (VersionsAdd secretName file opts) in
  d' = d /\
  exists r1 e1,
    labelStep W options secretName fc se d h = (r1, d, e1) /\
    match r1 with
    | Thrown err => r = Thrown err /\ evs = e1
    | Returned _ =>
        match execCommand_version W (h ++ e1 ++ [add]) with
        | Thrown err => r = Thrown err /\ evs = e1 ++ [add]
        | Returned name =>
            exists r3 e3,
              retireStep W options secretName fc name d (h ++ e1 ++ [add]) = (r3, d, e3) /\
              evs = e1 ++ add :: e3 /\
              r = match r3 with
                  | Returned _ => Returned true
                  | Thrown err => Thrown err
                  end
        end
    end.
Proof.
  intros Hrun add. unfold updateSecret in Hrun.
  change (getCommandOptions options) with opts in Hrun. rewrite bind_run in Hrun.
  destruct (labelStep W options secretName fc se d h) as [[r1 d1] e1] eqn:Hlabel.
  destruct (labelStep_run _ _ _ _ _ _ _ _ Hlabel) as [-> _].
  destruct r1 as [[]|err].
  - rewrite bind_run in Hrun. unfold execCommand in Hrun at 1.
    rewrite <- app_assoc in Hrun. fold add in Hrun.
    destruct (execCommand_version W (h ++ e1 ++ [add])) as [name|err] eqn:Hadd.
    + rewrite bind_run in Hrun.
      destruct (retireStep W options secretName fc name d _) as [[r3 d3] e3] eqn:Hretire.
      destruct (retireStep_run _ _ _ _ _ _ _ _ Hretire) as [-> _].
      rewrite <- ?app_assoc in Hretire.
      destruct r3 as [[]|err]; rewrite ?ret_run in Hrun;
        inversion Hrun; subst; (split; [reflexivity|]);
        exists (Returned tt), e1; (split; [reflexivity|]); rewrite Hadd;
        eexists _, e3; (split; [exact Hretire|]); rewrite ?app_nil_r; now split.
    + inversion Hrun; subst. split; [reflexivity|].
      exists (Returned tt), e1. split; [reflexivity|]. rewrite Hadd. now split.
  - inversion Hrun; subst. split; [reflexivity|].
    exists (Thrown err), evs. now split.
Qed.

Lemma reconcile_disk existing file fc d h r d' evs :
  reconcile W options existing file fc d h = (r, d', evs) -> d' = d.
Proof.
  unfold reconcile. destruct (find _ existing); intros Hrun.
  - now apply updateSecret_run in Hrun.
  - now apply createSecret_run in Hrun.
Qed.

Lemma afterDecrypt_run existing file fc d1 h1 r d' evs :
  afterDecrypt W options existing file fc d1 h1 = (r, d', evs) ->
  exists r2 e2,
    reconcile W options existing file fc d1 h1 = (r2, d1, e2) /\
    match r2 with
    | Thrown err => r = Thrown err /\ d' = d1 /\ evs = e2
    | Returned success =>
        exists evs3, evs = e2 ++ evs3 /\
          afterReconcile W options file fc d1 (h1 ++ e2) success r d' evs3
    end.
Proof.
  unfold afterDecrypt. rewrite bind_run.
  destruct (reconcile W options existing file fc d1 h1) as [[r2 d2] e2] eqn:Hrec.
  pose proof (reconcile_disk _ _ _ _ _ _ _ _ Hrec) as ->.
  intros Hrun. exists r2, e2. split; [reflexivity|].
  destruct r2 as [success|err]; [|now inversion Hrun].
  unfold afterReconcile, restored.
  destruct (String.eqb (status (__gcp_metadata fc)) "encrypted").
  - rewrite bind_run in Hrun. unfold storeFile in Hrun at 1.
    destruct (serviceAccounts (__gcp_metadata fc)) as [allowed|].
    + rewrite bind_run in Hrun.
      destruct (manageServiceAccounts _ _ _ _ _ _) as [[r4 d4] e4] eqn:Hiam.
      destruct (manageServiceAccounts_run _ _ _ _ _ _ _ Hiam) as [-> _].
      destruct r4 as [[]|err]; rewrite ?ret_run in Hrun; inversion Hrun; subst;
        eexists; (split; [reflexivity|]); (split; [reflexivity|]);
        eexists _, e4; (split; [reflexivity|]); rewrite ?app_nil_r; now split.
    + run_in Hrun. inversion Hrun; subst.
      eexists; split; [reflexivity|]. now repeat split.
  - rewrite bind_run, ret_run in Hrun. cbn [app] in Hrun.
    destruct (serviceAccounts (__gcp_metadata fc)) as [allowed|].
    + rewrite bind_run in Hrun.
      destruct (manageServiceAccounts _ _ _ _ _ _) as [[r4 d4] e4] eqn:Hiam.
      destruct (manageServiceAccounts_run _ _ _ _ _ _ _ Hiam) as [-> _].
      destruct r4 as [[]|err]; rewrite ?ret_run in Hrun; inversion Hrun; subst;
        eexists; (split; [reflexivity|]); (split; [reflexivity|]);
        eexists _, e4; (split; [reflexivity|]); rewrite ?app_nil_r; now split.
    + run_in Hrun. inversion Hrun; subst.
      eexists; split; [reflexivity|]. now repeat split.
Qed.

(** The unit of work of a file that is not filtered out and could be
    read, phase by phase: decrypt, reconcile, restore, IAM. *)
Lemma deployFile_run existing file fc d h r d' evs :
  filteredOut options (secretNameOf W file) = false ->
  getFileContent W d file = Returned fc ->
  deployFile W options existing file d h = (r, d', evs) ->
  (String.eqb (status (__gcp_metadata fc)) "encrypted" = true /\
   exists err, decryptFile W fc true = Thrown err /\
     r = Thrown err /\ d' = d /\ evs = [])
  \/
  exists e1 d1 r2 e2,
    decrypted W file fc d e1 d1 /\
    reconcile W options existing file fc d1 (h ++ e1) = (r2, d1, e2) /\
    match r2 with
    | Thrown err => r = Thrown err /\ d' = d1 /\ evs = e1 ++ e2
    | Returned success =>
        exists evs3, evs = e1 ++ e2 ++ evs3 /\
          afterReconcile W options file fc d1 (h ++ e1 ++ e2) success r d' evs3
    end.
Proof.
  intros Hfilter Hread. unfold deployFile. cbv zeta. rewrite Hfilter.
  rewrite bind_run. rewrite Hread. cbn [app]. rewrite app_nil_r.
  unfold decrypted. fold (reconcile W options existing file fc).
  fold (afterDecrypt W options existing file fc).
  destruct (String.eqb (status (__gcp_metadata fc)) "encrypted") eqn:Henc.
  - rewrite bind_run, (bind_run (lift _)). unfold lift at 1.
    destruct (decryptFile W fc true) as [data|err] eqn:Hdec.
    + run. rewrite ?app_nil_r.
      destruct (afterDecrypt W options existing file fc _ _) as [[r' d''] evs'] eqn:Hafter.
      apply afterDecrypt_run in Hafter. destruct Hafter as [r2 [e2 [Hrec Hcase]]].
      intros Hrun. inversion Hrun; subst. right.
      exists [Stored file (Decrypted data)], (<[file := Decrypted data]> d), r2, e2.
      split; [eauto|]. split; [exact Hrec|].
      destruct r2 as [success|err].
      * destruct Hcase as [evs3 [-> Hafter]]. exists evs3.
        rewrite <- app_assoc in Hafter. now split.
      * destruct Hcase as [-> [-> ->]]. now repeat split.
    + intros Hrun. inversion Hrun; subst. left. split; [reflexivity|]. eauto.
  - rewrite bind_run, ret_run. cbn [app]. rewrite app_nil_r.
    destruct (afterDecrypt W options existing file fc _ _) as [[r' d''] evs'] eqn:Hafter.
    apply afterDecrypt_run in Hafter. destruct Hafter as [r2 [e2 [Hrec Hcase]]].
    intros Hrun. inversion Hrun; subst. right.
    exists [], d, r2, e2. rewrite app_nil_r. split; [auto|]. split; [exact Hrec|].
    destruct r2 as [success|err].
    + destruct Hcase as [evs3 [-> Hafter]]. exists evs3. now split.
    + destruct Hcase as [-> [-> ->]]. now repeat split.
Qed.

Lemma manageServiceAccounts_events secretName allowed d h r d' evs :
  manageServiceAccounts W options secretName allowed d h = (r, d', evs) ->
  Forall (fun e => is_stored e = false /\ is_secret_op e = false) evs.
Proof.
  intros Hrun. apply manageServiceAccounts_run in Hrun.
  destruct Hrun as [_ [tail [-> [Hall _]]]].
  constructor; [split; reflexivity|].
  revert Hall. apply List.Forall_impl. intros e [He | [msg ->]].
  - destruct e as [[]| | | | |]; try discriminate; split; reflexivity.
  - split; reflexivity.
Qed.

Lemma info_or_binding_change_iam file fc tail :
  Forall info_or_binding_change tail -> Forall (restore_or_iam file fc) tail.
Proof.
  apply List.Forall_impl. intros e [He | [msg ->]].
  - right; left. destruct e as [[]| | | | |]; try discriminate; reflexivity.
  - right; right. eauto.
Qed.

Lemma afterReconcile_events file fc d1 h2 success r d' evs3 :
  afterReconcile W options file fc d1 h2 success r d' evs3 ->
  Forall (restore_or_iam file fc) evs3.
Proof.
  unfold afterReconcile, restored.
  assert (Hiam : forall allowed dd hh r4 e4,
    manageServiceAccounts W options (secretNameOf W file) allowed dd hh = (r4, dd, e4) ->
    Forall (restore_or_iam file fc) e4).
  { intros allowed dd hh r4 e4 Hrun.
    apply manageServiceAccounts_run in Hrun.
    destruct Hrun as [_ [tail [-> [Hall _]]]].
    constructor; [right; left; reflexivity|].
    now apply info_or_binding_change_iam. }
  destruct (String.eqb (status (__gcp_metadata fc)) "encrypted");
    intros [_ Hcase]; destruct (serviceAccounts (__gcp_metadata fc)) as [allowed|].
  - destruct Hcase as [r4 [e4 [Hrun [-> _]]]]. apply Hiam in Hrun.
    constructor; [now left | exact Hrun].
  - destruct Hcase as [_ ->]. constructor; [now left | constructor].
  - destruct Hcase as [r4 [e4 [Hrun [-> _]]]]. now apply Hiam in Hrun.
  - destruct Hcase as [_ ->]. constructor.
Qed.

Lemma labelStep_events secretName fc se d h r d' evs :
  labelStep W options secretName fc se d h = (r, d', evs) -> Forall reconcile_event evs.
Proof.
  intros Hrun. apply labelStep_run in Hrun. destruct Hrun as [_ Hcase].
  destruct (labelsDiffer se fc).
  - destruct Hcase as [msg [-> _]].
    constructor; [right; left; eauto|].
    constructor; [left; reflexivity | constructor].
  - destruct Hcase as [-> _]. constructor.
Qed.

Lemma retireStep_events secretName fc name d h r d' evs :
  retireStep W options secretName fc name d h = (r, d', evs) -> Forall reconcile_event evs.
Proof.
  intros Hrun. apply retireStep_run in Hrun.
  destruct Hrun as [_ [[_ [-> _]] | [[_ [msg [-> _]]] | [_ [_ [_ [[msg ->] _]]]]]]].
  - constructor.
  - constructor; [right; left; eauto|].
    constructor; [left; reflexivity | constructor].
  - constructor; [right; right; eauto | constructor].
Qed.

Lemma reconcile_events existing file fc d h r d' evs :
  reconcile W options existing file fc d h = (r, d', evs) -> Forall reconcile_event evs.
Proof.
  unfold reconcile. destruct (find _ existing) as [se|]; intros Hrun.
  - apply updateSecret_run in Hrun.
    destruct Hrun as [_ [r1 [e1 [Hlabel Hcase]]]].
    apply labelStep_events in Hlabel.
    destruct r1 as [[]|err]; [|destruct Hcase as [_ ->]; exact Hlabel].
    destruct (execCommand_version W _) as [name|err].
    + destruct Hcase as [r3 [e3 [Hretire [-> _]]]].
      apply retireStep_events in Hretire.
      apply List.Forall_app. split; [exact Hlabel|].
      constructor; [now left | exact Hretire].
    + destruct Hcase as [_ ->].
      apply List.Forall_app. split; [exact Hlabel|].
      constructor; [left; reflexivity | constructor].
  - apply createSecret_run in Hrun. destruct Hrun as [_ [msg [-> _]]].
    constructor; [right; left; eauto|].
    constructor; [left; reflexivity | constructor].
Qed.

Lemma decrypted_events file fc d e1 d1 :
  decrypted W file fc d e1 d1 ->
  e1 = [] \/ exists data, e1 = [Stored file (Decrypted data)].
Proof.
  unfold decrypted. destruct (String.eqb _ _).
  - intros [data [_ [-> _]]]. right. eauto.
  - intros [-> _]. now left.
Qed.

(** The unit of work of a secret that exists remotely, command by
    command. *)
Lemma deployFile_existing_run existing file fc se d h r d' evs :
  filteredOut options (secretNameOf W file) = false ->
  getFileContent W d file = Returned fc ->
  (status (__gcp_metadata fc) = "encrypted" ->
   exists data, decryptFile W fc true = Returned data) ->
  find (fun s => String.eqb (secret_name s) (secretNameOf W file)) existing = Some se ->
  deployFile W options existing file d h = (r, d', evs) ->
  let add := Exec (VersionsAdd (secretNameOf W file) file opts) in
  exists e1 d1 r1 el,
    decrypted W file fc d e1 d1 /\
    labelStep W options (secretNameOf W file) fc se d1 (h ++ e1) = (r1, d1, el) /\
    match r1 with
    | Thrown err => r = Thrown err /\ evs = e1 ++ el
    | Returned _ =>
        match execCommand_version W (h ++ e1 ++ el ++ [add]) with
        | Thrown err => r = Thrown err /\ evs = e1 ++ el ++ [add]
        | Returned name =>
            exists r3 e3,
              retireStep W options (secretNameOf W file) fc name d1 (h ++ e1 ++ el ++ [add])
                = (r3, d1, e3) /\
              match r3 with
              | Thrown err => r = Thrown err /\ evs = e1 ++ el ++ add :: e3
              | Returned _ =>
                  exists evs3,
                    evs = e1 ++ el ++ add :: e3 ++ evs3 /\
                    afterReconcile W options file fc d1 (h ++ e1 ++ el ++ add :: e3)
                      true r d' evs3
              end
        end
    end.
Proof.
  intros Hfilter Hread Hdecrypt Hfind Hrun add.
  apply (deployFile_run existing file fc) in Hrun; [|assumption..].
  destruct Hrun as [[Henc [err [Hthrow _]]] | [e1 [d1 [r2 [e2 [Hdec [Hrec Hcase]]]]]]].
  { apply String.eqb_eq in Henc. destruct (Hdecrypt Henc) as [data Hdata]. congruence. }
  unfold reconcile in Hrec. rewrite Hfind in Hrec.
  apply updateSecret_run in Hrec. destruct Hrec as [_ [r1 [el [Hlabel Hupd]]]].
  exists e1, d1, r1, el. split; [exact Hdec|]. split; [exact Hlabel|].
  destruct r1 as [[]|err].
  - rewrite <- app_assoc in Hupd. fold add in Hupd.
    destruct (execCommand_version W (h ++ e1 ++ el ++ [add])) as [name|err].
    + destruct Hupd as [r3 [e3 [Hretire [-> ->]]]].
      rewrite <- ?app_assoc in Hretire. exists r3, e3. split; [exact Hretire|].
      destruct r3 as [[]|err].
      * destruct Hcase as [evs3 [-> Hafter]]. exists evs3.
        split; [now rewrite <- app_assoc | exact Hafter].
      * destruct Hcase as [-> [_ ->]]. now split.
    + destruct Hupd as [-> ->]. destruct Hcase as [-> [_ ->]]. now split.
  - destruct Hupd as [-> ->]. destruct Hcase as [-> [_ ->]]. now split.
Qed.

End Blocks.

Lemma restore_or_iam_not_secret_op file fc evs :
  Forall (restore_or_iam file fc) evs ->
  Forall (fun e => is_secret_op e = false) evs.
Proof.
  apply List.Forall_impl. intros e [-> | [He | [msg ->]]]; try reflexivity.
  destruct e as [[]| | | | |]; try discriminate; reflexivity.
Qed.

Lemma labelsDiffer_false (se : ExistingSecret) (fc : SecretFile) :
  labelsDiffer se fc = false <-> existingLabelsOf se = labels (__gcp_metadata fc).
Proof.
  unfold labelsDiffer. rewrite negb_false_iff, String.eqb_eq. split.
  - apply JSONFacts.stringify_inj.
  - now intros ->.
Qed.

Lemma labelsDiffer_true (se : ExistingSecret) (fc : SecretFile) :
  labelsDiffer se fc = true <-> existingLabelsOf se <> labels (__gcp_metadata fc).
Proof.
  rewrite <- labelsDiffer_false. destruct (labelsDiffer se fc); split; congruence.
Qed.

Lemma secret_op_parts (e : event) :
  is_secret_op e = false ->
  is_create e = false /\ is_addVersion e = false /\
  is_updateLabels e = false /\ is_retireVersion e = false.
Proof.
  unfold is_secret_op. rewrite !orb_false_iff. tauto.
Qed.

Lemma decrypted_quiet W file fc d e1 d1 :
  decrypted W file fc d e1 d1 ->
  Forall (fun e => is_secret_op e = false /\ is_iam e = false) e1.
Proof.
  intros Hdec. destruct (decrypted_events _ _ _ _ _ _ Hdec) as [-> | [data ->]];
    repeat constructor.
Qed.

Lemma afterReconcile_quiet W options file fc d1 h2 success r d' evs3 :
  afterReconcile W options file fc d1 h2 success r d' evs3 ->
  Forall (fun e => is_secret_op e = false) evs3.
Proof.
  intros Hafter. eapply restore_or_iam_not_secret_op.
  eapply afterReconcile_events. exact Hafter.
Qed.

Lemma filter_none {A} (f : A -> bool) (l : list A) :
  Forall (fun x => f x = false) l -> List.filter f l = [].
Proof.
  induction 1 as [|x l Hx _ IH]; [reflexivity|]. cbn. now rewrite Hx.
Qed.

Lemma reconcile_event_quiet evs :
  Forall reconcile_event evs ->
  Forall (fun e => is_stored e = false /\ is_iam e = false) evs.
Proof.
  apply List.Forall_impl. intros e [He | [[msg ->] | [msg ->]]]; try (split; reflexivity).
  destruct e as [[]| | | | |]; try discriminate; split; reflexivity.
Qed.

(** An element that occurs once splits a list in one way only. *)
Lemma split_unique {A} (x : A) (a b a' b' : list A) :
  a ++ x :: b = a' ++ x :: b' -> ~ In x a -> ~ In x b -> a' = a /\ b' = b.
Proof.
  revert a'. induction a as [|y a IH]; intros a' Heq Ha Hb.
  - destruct a' as [|y' a']; cbn in Heq.
    + inversion Heq. now split.
    + inversion Heq; subst. exfalso. apply Hb. apply in_or_app. right. now left.
  - destruct a' as [|y' a']; cbn in Heq.
    + inversion Heq; subst. exfalso. apply Ha. now left.
    + inversion Heq; subst. destruct (IH a' H1) as [-> ->].
      * intros Hin. apply Ha. now right.
      * exact Hb.
      * now split.
Qed.

Lemma not_In_Forall {A} (f : A -> bool) (x : A) (l : list A) :
  f x = true -> Forall (fun e => f e = false) l -> ~ In x l.
Proof.
  intros Hx Hall Hin. rewrite List.Forall_forall in Hall.
  apply Hall in Hin. congruence.
Qed.

Lemma labelStep_quiet W options secretName fc se d h r d' el :
  labelStep W options secretName fc se d h = (r, d', el) ->
  Forall (fun e => is_addVersion e = false /\ is_retireVersion e = false /\
                   is_iam e = false /\ is_stored e = false) el.
Proof.
  intros Hrun. apply labelStep_run in Hrun. destruct Hrun as [_ Hcase].
  destruct (labelsDiffer se fc).
  - destruct Hcase as [msg [-> _]]. repeat constructor.
  - destruct Hcase as [-> _]. constructor.
Qed.

Lemma retireStep_quiet W options secretName fc name d h r d' e3 :
  retireStep W options secretName fc name d h = (r, d', e3) ->
  Forall (fun e => is_addVersion e = false /\ is_iam e = false /\ is_stored e = false) e3.
Proof.
  intros Hrun. apply retireStep_run in Hrun.
  destruct Hrun as [_ [[_ [-> _]] | [[_ [msg [-> _]]] | [_ [_ [_ [[msg ->] _]]]]]]];
    repeat constructor.
Qed.

(** The version add of a unit of work occurs once in its trace: what comes
    before it is the decrypt step and the label step, what follows is
    decided by the answer to the command. *)
Lemma add_splits_unit W options existing file fc se d h r d' evs pre post :
  filteredOut options (secretNameOf W file) = false ->
  getFileContent W d file = Returned fc ->
  find (fun s => String.eqb (secret_name s) (secretNameOf W file)) existing = Some se ->
  deployFile W options existing file d h = (r, d', evs) ->
  let add := Exec (VersionsAdd (secretNameOf W file) file (getCommandOptions options)) in
  evs = pre ++ add :: post ->
  exists e1 d1 el,
    decrypted W file fc d e1 d1 /\
    labelStep W options (secretNameOf W file) fc se d1 (h ++ e1) = (Returned tt, d1, el) /\
    pre = e1 ++ el /\
    match execCommand_version W (h ++ pre ++ [add]) with
    | Thrown err => post = [] /\ r = Thrown err
    | Returned name =>
        exists r3 e3,
          retireStep W options (secretNameOf W file) fc name d1 (h ++ pre ++ [add])
            = (r3, d1, e3) /\
          match r3 with
          | Thrown err => r = Thrown err /\ post = e3
          | Returned _ =>
              exists evs3,
                post = e3 ++ evs3 /\
                afterReconcile W options file fc d1 (h ++ pre ++ add :: e3) true r d' evs3
          end
    end.
Proof.
  intros Hfilter Hread Hfind Hrun add Hsplit.
  assert (Hdecrypt : status (__gcp_metadata fc) = "encrypted" ->
                     exists data, decryptFile W fc true = Returned data).
  { intros Henc. destruct (decryptFile W fc true) as [data|err] eqn:Hdec; [eauto|].
    apply (deployFile_run W options existing file fc) in Hrun; [|assumption..].
    destruct Hrun as [[_ [err' [_ [_ [_ ->]]]]] | [e1 [d1 [r2 [e2 [Hd _]]]]]].
    - now apply app_cons_not_nil in Hsplit.
    - unfold decrypted in Hd. apply String.eqb_eq in Henc. rewrite Henc in Hd.
      destruct Hd as [data [Hd _]]. congruence. }
  apply (deployFile_existing_run W options existing file fc se) in Hrun; [|assumption..].
  destruct Hrun as [e1 [d1 [r1 [el [Hdec [Hlabel Hcase]]]]]].
  fold add in Hcase.
  assert (Hpre : ~ In add (e1 ++ el)).
  { apply (not_In_Forall is_addVersion); [reflexivity|].
    apply List.Forall_app. split.
    - apply decrypted_quiet in Hdec. revert Hdec. apply List.Forall_impl.
      intros e [He _]. now apply secret_op_parts in He.
    - apply labelStep_quiet in Hlabel. revert Hlabel. apply List.Forall_impl. tauto. }
  destruct r1 as [[]|err].
  - exists e1, d1, el. split; [exact Hdec|]. split; [exact Hlabel|].
    destruct (execCommand_version W (h ++ e1 ++ el ++ [add])) as [name|err] eqn:Hadd.
    + destruct Hcase as [r3 [e3 [Hretire Hcase]]].
      pose proof (retireStep_quiet _ _ _ _ _ _ _ _ _ _ Hretire) as Hq3.
      assert (He3 : ~ In add e3).
      { apply (not_In_Forall is_addVersion); [reflexivity|].
        revert Hq3. apply List.Forall_impl. tauto. }
      destruct r3 as [[]|err].
      * destruct Hcase as [evs3 [-> Hafter]].
        assert (He4 : ~ In add (e3 ++ evs3)).
        { intros Hin. apply in_app_or in Hin. destruct Hin as [Hin|Hin]; [now apply He3|].
          revert Hin. apply (not_In_Forall is_addVersion); [reflexivity|].
          apply afterReconcile_quiet in Hafter. revert Hafter.
          apply List.Forall_impl. intros e He. now apply secret_op_parts in He. }
        rewrite (app_assoc e1 el) in Hsplit.
        destruct (split_unique _ _ _ _ _ Hsplit Hpre He4) as [-> ->].
        split; [reflexivity|]. rewrite <- !app_assoc. rewrite Hadd.
        exists (Returned tt), e3. split; [exact Hretire|]. exists evs3.
        split; [reflexivity | now rewrite <- app_assoc].
      * destruct Hcase as [-> ->].
        rewrite (app_assoc e1 el) in Hsplit.
        destruct (split_unique _ _ _ _ _ Hsplit Hpre He3) as [-> ->].
        split; [reflexivity|]. rewrite <- !app_assoc. rewrite Hadd.
        exists (Thrown err), e3. split; [exact Hretire|]. now split.
    + destruct Hcase as [-> ->].
      rewrite (app_assoc e1 el) in Hsplit.
      destruct (split_unique _ _ _ _ _ Hsplit Hpre (fun H => H)) as [-> ->].
      split; [reflexivity|]. rewrite <- !app_assoc. rewrite Hadd. now split.
  - destruct Hcase as [_ ->]. exfalso. apply Hpre. rewrite Hsplit.
    apply in_or_app. right. now left.
Qed.

Lemma afterReconcile_result W options file fc d1 h2 success r d' evs3 :
  afterReconcile W options file fc d1 h2 success r d' evs3 ->
  (forall b, r = Returned b -> b = success) /\
  (serviceAccounts (__gcp_metadata fc) = None -> r = Returned success).
Proof.
  unfold afterReconcile. destruct (restored file fc d1) as [e3 d3].
  intros [_ Hcase]. destruct (serviceAccounts (__gcp_metadata fc)) as [allowed|].
  - destruct Hcase as [r4 [e4 [_ [_ ->]]]]. split; [|discriminate].
    destruct r4; intros b Hb; now inversion Hb.
  - destruct Hcase as [-> _]. split; [|reflexivity]. intros b Hb. now inversion Hb.
Qed.

(** *** The binding diff *)

Lemma serviceAccountsToAdd_In allowed current x :
  In x (serviceAccountsToAdd allowed current) <-> In x allowed /\ ~ In x current.
Proof.
  unfold serviceAccountsToAdd. rewrite List.filter_In. now rewrite includes_not_In.
Qed.

Lemma serviceAccountsToDelete_In allowed current x :
  In x (serviceAccountsToDelete allowed current) <-> In x current /\ ~ In x allowed.
Proof.
  unfold serviceAccountsToDelete. rewrite List.filter_In. now rewrite includes_not_In.
Qed.



(** *** The fan-out over the files *)

Lemma mapAsync_app f l1 l2 d h :
  mapAsync f (l1 ++ l2) d h =
  (let '(ps1, d1, e1) := mapAsync f l1 d h in
   let '(ps2, d2, e2) := mapAsync f l2 d1 (h ++ e1) in
   (ps1 ++ ps2, d2, e1 ++ e2)).
Proof.
  revert d h. induction l1 as [|file l1 IH]; intros d h.
  - cbn [app mapAsync]. rewrite app_nil_r.
    now destruct (mapAsync f l2 d h) as [[ps2 d2] e2].
  - cbn [app mapAsync]. destruct (f file d h) as [[p d1] e1]. rewrite IH.
    destruct (mapAsync f l1 d1 (h ++ e1)) as [[ps1 d2] e2].
    rewrite <- app_assoc.
    destruct (mapAsync f l2 d2 (h ++ e1 ++ e2)) as [[ps2 d3] e3].
    now rewrite <- app_assoc.
Qed.

Lemma mapAsync_length f l d h : length (mapAsync f l d h).1.1 = length l.
Proof.
  revert d h. induction l as [|file l IH]; intros d h; [reflexivity|].
  cbn [mapAsync]. destruct (f file d h) as [[p d1] e1]. specialize (IH d1 (h ++ e1)).
  destruct (mapAsync f l d1 (h ++ e1)) as [[ps d2] e2]. cbn in *. now rewrite IH.
Qed.

(** A callback that returns [true] at once, whatever the state, leaves no
    trace in the fan-out. *)
Lemma mapAsync_skipped f l d h :
  (forall file, In file l -> forall d h, f file d h = (Returned true, d, [])) ->
  mapAsync f l d h = (map (fun _ => Returned true) l, d, []).
Proof.
  revert h. induction l as [|file l IH]; intros h Hskip; [reflexivity|].
  cbn [mapAsync map]. rewrite (Hskip file (or_introl eq_refl)).
  rewrite IH; [reflexivity|]. intros file' Hin. apply Hskip. now right.
Qed.

Lemma promiseAll_Returned ps bs :
  promiseAll ps = Returned bs -> ps = map Returned bs.
Proof.
  revert bs. induction ps as [|[b|err] ps IH]; intros bs Hall; cbn in Hall.
  - now inversion Hall.
  - destruct (promiseAll ps) as [bs'|err]; [|discriminate].
    inversion Hall; subst. cbn. now rewrite (IH bs' eq_refl).
  - discriminate.
Qed.

Lemma promiseAll_Thrown ps err :
  promiseAll ps = Thrown err -> In (Thrown err) ps.
Proof.
  induction ps as [|[b|err'] ps IH]; intros Hall; cbn in Hall.
  - discriminate.
  - destruct (promiseAll ps) as [bs'|err'']; [discriminate|].
    inversion Hall; subst. right. now apply IH.
  - inversion Hall. now left.
Qed.

Lemma forallb_succeeded_Thrown ps err :
  In (Thrown err) ps -> forallb succeeded ps = false.
Proof.
  intros Hin. destruct (forallb succeeded ps) eqn:Hall; [|reflexivity].
  rewrite forallb_forall in Hall. now apply Hall in Hin.
Qed.

(** [secretsCreated.filter(Boolean).length === files.length] *)
Lemma all_created (bs : list bool) :
  (length (List.filter id bs) =? length bs)%nat = forallb succeeded (map Returned bs).
Proof.
  induction bs as [|b bs IH]; [reflexivity|].
  destruct b; cbn [List.filter id map forallb succeeded length andb].
  - exact IH.
  - pose proof (List.filter_length_le id bs) as Hle.
    apply Nat.eqb_neq. unfold id in *. lia.
Qed.

Lemma mapAsync_lookup f l d h i file :
  l !! i = Some file ->
  exists d0 h0, (mapAsync f l d h).1.1 !! i = Some (f file d0 h0).1.1.
Proof.
  revert d h i. induction l as [|x l IH]; intros d h i Hi; [discriminate|].
  cbn [mapAsync]. destruct (f x d h) as [[p d1] e1] eqn:Hx.
  specialize (IH d1 (h ++ e1)).
  destruct (mapAsync f l d1 (h ++ e1)) as [[ps d2] e2].
  destruct i as [|i]; cbn in Hi |- *.
  - inversion Hi; subst. exists d, h. now rewrite Hx.
  - now apply IH.
Qed.

(** The run, once the listing has returned: every file has had its unit
    of work, the result is the conjunction of the outcomes, and a rejected
    promise adds the two error lines of the [catch]. *)
Lemma deployExecutor_run W options sourceRoot d h listed ps d' evs :
  isEncryptionKeySet W = true ->
  let list := Exec (SecretsList (getCommandOptions options)) in
  execCommand_secrets W (h ++ [list]) = Returned listed ->
  mapAsync (deployFile W options (map shortName listed))
    (getAllSecretFiles W sourceRoot) d (h ++ [list]) = (ps, d', evs) ->
  exists tail,
    deployExecutor W options sourceRoot d h
      = (forallb succeeded ps, d', list :: evs ++ tail) /\
    (tail = [] \/
     exists err, In (Thrown err) ps /\
       tail = [LogError ("Error happened trying to decrypt files: " +:+ err);
               ConsoleError err]).
Proof.
  intros Hkey list Hlisted Hmap.
  pose proof (mapAsync_length (deployFile W options (map shortName listed))
                (getAllSecretFiles W sourceRoot) d (h ++ [list])) as Hlen.
  rewrite Hmap in Hlen. cbn [fst] in Hlen.
  unfold deployExecutor, tryBody. rewrite Hkey, bind_run.
  unfold execCommand at 1. fold list. rewrite Hlisted, Hmap.
  destruct (promiseAll ps) as [bs|err] eqn:Hall.
  - apply promiseAll_Returned in Hall. subst ps. rewrite length_map in Hlen.
    exists []. rewrite <- Hlen, all_created, app_nil_r. split; [reflexivity | now left].
  - apply promiseAll_Thrown in Hall. eexists. split.
    + rewrite (forallb_succeeded_Thrown _ _ Hall). reflexivity.
    + right. eauto.
Qed.

Example healthy_run :
  deployExecutor Scenario.healthy Scenario.acme "apps/web/src" Scenario.files [] =
  (true, Scenario.files,
   [ Exec (SecretsList ["--project=acme"]);
     Stored "secrets/db.json" (Decrypted "plain:c2VjcmV0");
     LogInfo ("Updating " +:+ q +:+ "db" +:+ q +:+ " it's labels");
     Exec (SecretsUpdate "db" ["--clear-labels"; "--update-labels=a=1,b=2"]
             ["--project=acme"]);
     Exec (VersionsAdd "db" "secrets/db.json" ["--project=acme"]);
     LogInfo ("Destroying previous version of secret " +:+ q +:+ "db" +:+ q);
     Exec (VersionsRetire "destroy" (JS.Num 6) "db" ["--project=acme"]);
     Stored "secrets/db.json" (Definition_ Scenario.dbFile);
     Exec (GetIamPolicy "db" ["--project=acme"]);
     LogInfo ("Going to add " +:+ q +:+ "sa:x" +:+ q +:+ " to secret " +:+ q +:+ "db" +:+ q);
     Exec (AddIamPolicyBinding "db" "sa:x" ["--project=acme"]);
     LogInfo ("Going to remove " +:+ q +:+ "sa:z" +:+ q +:+ " from secret " +:+ q +:+ "db" +:+ q);
     Exec (RemoveIamPolicyBinding "db" "sa:z" ["--project=acme"]);
     LogInfo ("Creating secret " +:+ q +:+ "api" +:+ q +:+ " from file "
              +:+ q +:+ "api.json" +:+ q);
     Exec (SecretsCreate "api" "secrets/api.json" ["--clear-labels"]
             ["--project=acme"]) ]).
Proof. vm_compute. reflexivity. Qed.


(** ** The properties of the reconciliation *)

Section Claims.

Variable W : Collaborators.
Variable options : DeploySchema.

Let opts := getCommandOptions options.

(** The exits of the unit of work of an encrypted definition:
    decryption threw and the file was never rewritten; or the original
    encrypted content was written back (which is the case whenever the
    unit returns, whatever the create command reported, and whenever an
    IAM call was reached); or a command on the secret itself (create,
    updateLabels, addVersion, retireVersion) threw, the unit stops on that
    command, lines 156-159 are not reached and the file still holds the
    decrypted content. *)
Lemma encrypted_unit_exits existing file fc d h r d' evs :
  filteredOut options (secretNameOf W file) = false ->
  getFileContent W d file = Returned fc ->
  status (__gcp_metadata fc) = "encrypted" ->
  deployFile W options existing file d h = (r, d', evs) ->
  ((exists err, decryptFile W fc true = Thrown err /\
      r = Thrown err /\ d' = d /\ evs = [])
   \/
   (d' !! file = Some (Definition_ fc) /\ In (Stored file (Definition_ fc)) evs)
   \/
   (exists err data pre c,
      r = Thrown err /\ decryptFile W fc true = Returned data /\
      evs = Stored file (Decrypted data) :: pre ++ [Exec c] /\
      is_secret_op (Exec c) = true /\
      Forall (fun e => is_stored e = false /\ is_iam e = false) (pre ++ [Exec c]) /\
      d' !! file = Some (Decrypted data)))
  /\ (forall b, r = Returned b -> d' !! file = Some (Definition_ fc))
  /\ (Exists (fun e => is_iam e = true) evs -> d' !! file = Some (Definition_ fc)).
Proof.
  intros Hfilter Hread Henc Hrun. apply String.eqb_eq in Henc.
  apply (deployFile_run W options existing file fc) in Hrun; [|assumption..].
  destruct Hrun as [[_ [err [Hdec [-> [-> ->]]]]] | [e1 [d1 [r2 [e2 [Hdec [Hrec Hcase]]]]]]].
  { split; [left; eauto|]. split; [discriminate|].
    intros Hex. apply Exists_nil in Hex. contradiction. }
  unfold decrypted in Hdec. rewrite Henc in Hdec.
  destruct Hdec as [data [Hdata [-> ->]]].
  pose proof (reconcile_event_quiet _ (reconcile_events _ _ _ _ _ _ _ _ _ _ Hrec)) as Hquiet.
  destruct r2 as [success|err].
  - destruct Hcase as [evs3 [-> Hafter]].
    unfold afterReconcile, restored in Hafter. rewrite Henc in Hafter.
    destruct Hafter as [-> Hcase].
    assert (Hlook : <[file := Definition_ fc]> (<[file := Decrypted data]> d) !! file
                    = Some (Definition_ fc)) by apply lookup_insert_eq.
    assert (Hin : In (Stored file (Definition_ fc))
                     ([Stored file (Decrypted data)] ++ e2 ++ evs3)).
    { apply in_or_app. right. apply in_or_app. right.
      destruct (serviceAccounts (__gcp_metadata fc)).
      - destruct Hcase as [r4 [e4 [_ [-> _]]]]. now left.
      - destruct Hcase as [_ ->]. now left. }
    split; [right; left; now split|]. split; intros; exact Hlook.
  - destruct Hcase as [-> [-> ->]].
    assert (Hlast : exists pre c, e2 = pre ++ [Exec c] /\ is_secret_op (Exec c) = true).
    { clear Hquiet. unfold reconcile in Hrec.
      destruct (find _ existing) as [se|].
      - apply updateSecret_run in Hrec.
        destruct Hrec as [_ [r1 [e1 [Hlabel Hcase]]]].
        apply labelStep_run in Hlabel. destruct Hlabel as [_ Hlabel].
        destruct r1 as [[]|err1].
        + destruct (execCommand_version W _) as [name|err2].
          * destruct Hcase as [r3 [e3 [Hretire [-> Hr]]]].
            apply retireStep_run in Hretire.
            destruct Hretire as [_ [[_ [_ ->]] | [[_ [msg [-> Hcall]]] | [_ [_ [_ [_ ->]]]]]]];
              try discriminate.
            eexists (e1 ++ [_; _]), _.
            split; [rewrite <- !app_assoc; reflexivity | reflexivity].
          * destruct Hcase as [_ ->]. eexists e1, _. split; reflexivity.
        + destruct Hcase as [_ ->]. destruct (labelsDiffer se fc).
          * destruct Hlabel as [msg [-> _]]. eexists [_], _. split; reflexivity.
          * destruct Hlabel as [_ Hr]. discriminate.
      - apply createSecret_run in Hrec. destruct Hrec as [_ [msg [-> _]]].
        eexists [_], _. split; reflexivity. }
    destruct Hlast as [pre [c [-> Hc]]].
    assert (Hlook : <[file := Decrypted data]> d !! file = Some (Decrypted data))
      by apply lookup_insert_eq.
    split; [|split].
    + right; right. exists err, data, pre, c. repeat split; assumption.
    + discriminate.
    + intros Hex. exfalso. apply List.Exists_exists in Hex.
      destruct Hex as [e [Hin He]]. rewrite List.Forall_forall in Hquiet.
      destruct Hin as [<- | Hin]; [discriminate|].
      apply Hquiet in Hin. destruct Hin as [_ Hni]. congruence.
Qed.

(** C2. An error raised in the unit of work of one secret stays with
    that secret: it settles the promise of that file and of no other, the
    files before and after it have their units run all the same (each
    from the state the previous one left, whatever its outcome), and the
    run reports the conjunction of the outcomes.  Only when the listing of
    the remote secrets throws is no unit run at all. *)
Theorem C2_errors_stay_with_their_secret sourceRoot d h :
  isEncryptionKeySet W = true ->
  let list := Exec (SecretsList opts) in
  let h0 := h ++ [list] in
  match execCommand_secrets W h0 with
  | Thrown err =>
      deployExecutor W options sourceRoot d h =
      (false, d,
       [list; LogError ("Error happened trying to decrypt files: " +:+ err);
        ConsoleError err])
  | Returned listed =>
      let unit := deployFile W options (map shortName listed) in
      forall before file after,
        getAllSecretFiles W sourceRoot = before ++ file :: after ->
        let '(ps1, d1, e1) := mapAsync unit before d h0 in
        let '(p, d2, e2) := unit file d1 (h0 ++ e1) in
        let '(ps3, d3, e3) := mapAsync unit after d2 (h0 ++ e1 ++ e2) in
        exists tail,
          deployExecutor W options sourceRoot d h =
          (forallb succeeded (ps1 ++ p :: ps3), d3, list :: e1 ++ e2 ++ e3 ++ tail) /\
          (tail = [] \/
           exists err, In (Thrown err) (ps1 ++ p :: ps3) /\
             tail = [LogError ("Error happened trying to decrypt files: " +:+ err);
                     ConsoleError err])
  end.
Proof.
  intros Hkey list h0.
  destruct (execCommand_secrets W h0) as [listed|err] eqn:Hlisted.
  - intros unit before file after Hfiles.
    pose proof (mapAsync_app unit before (file :: after) d h0) as Happ.
    destruct (mapAsync unit before d h0) as [[ps1 d1] e1].
    cbn [mapAsync] in Happ.
    destruct (unit file d1 (h0 ++ e1)) as [[p d2] e2].
    rewrite <- app_assoc in Happ.
    destruct (mapAsync unit after d2 (h0 ++ e1 ++ e2)) as [[ps3 d3] e3].
    rewrite <- Hfiles in Happ.
    destruct (deployExecutor_run W options sourceRoot d h listed _ _ _ Hkey Hlisted Happ)
      as [tail [Hrun Htail]].
    exists tail. rewrite <- !app_assoc in Hrun. now split.
  - unfold deployExecutor, tryBody. rewrite Hkey, bind_run.
    unfold execCommand at 1. fold opts list h0. now rewrite Hlisted.
Qed.

(** C3, as the executor has it.  The label comparison is a comparison of
    sequences: for a secret that exists remotely, the unit of work issues
    no updateLabels command when the remote labels, written [key=value] in
    the order of the remote object, are the declared sequence, and exactly
    one when they are any other sequence. *)
Theorem C3_labels_compared_as_sequences existing file fc se d h r d' evs :
  filteredOut options (secretNameOf W file) = false ->
  getFileContent W d file = Returned fc ->
  (status (__gcp_metadata fc) = "encrypted" ->
   exists data, decryptFile W fc true = Returned data) ->
  find (fun s => String.eqb (secret_name s) (secretNameOf W file)) existing = Some se ->
  deployFile W options existing file d h = (r, d', evs) ->
  (existingLabelsOf se = labels (__gcp_metadata fc) ->
   List.filter is_updateLabels evs = [])
  /\
  (existingLabelsOf se <> labels (__gcp_metadata fc) ->
   List.filter is_updateLabels evs =
     [Exec (SecretsUpdate (secretNameOf W file)
              (addLabelsIfNeeded (labels (__gcp_metadata fc)) false) opts)]).
Proof.
  intros Hfilter Hread Hdecrypt Hfind Hrun.
  apply (deployFile_existing_run W options existing file fc se) in Hrun; [|assumption..].
  destruct Hrun as [e1 [d1 [r1 [el [Hdec [Hlabel Hcase]]]]]].
  assert (He1 : List.filter is_updateLabels e1 = []).
  { apply filter_none. apply decrypted_quiet in Hdec. revert Hdec.
    apply List.Forall_impl. intros e [He _]. now apply secret_op_parts in He. }
  assert (Htail : List.filter is_updateLabels evs = List.filter is_updateLabels el).
  { destruct r1 as [[]|err].
    - destruct (execCommand_version W _) as [name|err].
      + destruct Hcase as [r3 [e3 [Hretire Hcase]]].
        assert (He3 : List.filter is_updateLabels e3 = []).
        { apply retireStep_run in Hretire.
          destruct Hretire as [_ [[_ [-> _]] | [[_ [msg [-> _]]] | [_ [_ [_ [[msg ->] _]]]]]]];
            reflexivity. }
        destruct r3 as [[]|err].
        * destruct Hcase as [evs3 [-> Hafter]].
          apply afterReconcile_quiet in Hafter.
          assert (He4 : List.filter is_updateLabels evs3 = []).
          { apply filter_none. revert Hafter. apply List.Forall_impl.
            intros e He. now apply secret_op_parts in He. }
          rewrite !List.filter_app. cbn [List.filter is_updateLabels].
          rewrite List.filter_app, He1, He3, He4, app_nil_r. reflexivity.
        * destruct Hcase as [_ ->].
          rewrite !List.filter_app. cbn [List.filter is_updateLabels].
          rewrite He1, He3, app_nil_r. reflexivity.
      + destruct Hcase as [_ ->]. rewrite !List.filter_app, He1.
        cbn. now rewrite app_nil_r.
    - destruct Hcase as [_ ->]. now rewrite List.filter_app, He1. }
  rewrite Htail. apply labelStep_run in Hlabel. destruct Hlabel as [_ Hlabel].
  split; intros Hlabels.
  - apply labelsDiffer_false in Hlabels. rewrite Hlabels in Hlabel.
    now destruct Hlabel as [-> _].
  - apply labelsDiffer_true in Hlabels. rewrite Hlabels in Hlabel.
    now destruct Hlabel as [msg [-> _]].
Qed.

(** C4. When the version add of an existing secret throws, the unit of
    work of that secret ends on that command: no retirement and no IAM
    call is made for it, its promise is rejected with that error, and the
    files after it are still taken, from the state that unit left. *)
Theorem C4_failed_version_add_ends_unit existing file fc se d h r d' evs pre post err :
  filteredOut options (secretNameOf W file) = false ->
  getFileContent W d file = Returned fc ->
  find (fun s => String.eqb (secret_name s) (secretNameOf W file)) existing = Some se ->
  deployFile W options existing file d h = (r, d', evs) ->
  let add := Exec (VersionsAdd (secretNameOf W file) file opts) in
  evs = pre ++ add :: post ->
  execCommand_version W (h ++ pre ++ [add]) = Thrown err ->
  post = [] /\ r = Thrown err /\
  Forall (fun e => is_retireVersion e = false /\ is_iam e = false) evs /\
  forall rest,
    mapAsync (deployFile W options existing) (file :: rest) d h =
    (let '(ps, d2, e2) :=
       mapAsync (deployFile W options existing) rest d' (h ++ evs) in
     (Thrown err :: ps, d2, evs ++ e2)).
Proof.
  intros Hfilter Hread Hfind Hrun add Hsplit Hthrow.
  destruct (add_splits_unit W options existing file fc se d h r d' evs pre post
              Hfilter Hread Hfind Hrun Hsplit)
    as [e1 [d1 [el [Hdec [Hlabel [Hpre Hcase]]]]]].
  fold opts add in Hcase. rewrite Hthrow in Hcase. destruct Hcase as [-> ->].
  split; [reflexivity|]. split; [reflexivity|]. split.
  - rewrite Hsplit, Hpre. rewrite !List.Forall_app. repeat split.
    + apply decrypted_quiet in Hdec. revert Hdec. apply List.Forall_impl.
      intros e [He Hi]. apply secret_op_parts in He. tauto.
    + apply labelStep_quiet in Hlabel. revert Hlabel. apply List.Forall_impl. tauto.
    + repeat constructor.
  - intros rest. cbn [mapAsync]. now rewrite Hrun.
Qed.

(** C5. A declared secret that the remote snapshot does not contain gets
    exactly one create command, carrying the declared labels, and no
    addVersion, updateLabels or retireVersion: of the operations on the
    secret itself, the create command is the only one in the trace of its
    unit of work. *)
Theorem C5_missing_secret_created_once existing file fc d h r d' evs :
  filteredOut options (secretNameOf W file) = false ->
  getFileContent W d file = Returned fc ->
  (status (__gcp_metadata fc) = "encrypted" ->
   exists data, decryptFile W fc true = Returned data) ->
  (forall s, In s existing -> secret_name s <> secretNameOf W file) ->
  deployFile W options existing file d h = (r, d', evs) ->
  List.filter is_secret_op evs =
    [Exec (SecretsCreate (secretNameOf W file) file
             (addLabelsIfNeeded (labels (__gcp_metadata fc)) true) opts)]
  /\ (labels (__gcp_metadata fc) <> [] ->
      addLabelsIfNeeded (labels (__gcp_metadata fc)) true
      = ["--labels=" +:+ JS.join "," (labels (__gcp_metadata fc))]).
Proof.
  intros Hfilter Hread Hdecrypt Habsent Hrun. split.
  - apply (deployFile_run W options existing file fc) in Hrun; [|assumption..].
    destruct Hrun as [[Henc [err [Hthrow _]]] | [e1 [d1 [r2 [e2 [Hdec [Hrec Hcase]]]]]]].
    { apply String.eqb_eq in Henc. destruct (Hdecrypt Henc) as [data Hdata]. congruence. }
    unfold reconcile in Hrec. rewrite (find_absent _ _ Habsent) in Hrec.
    apply createSecret_run in Hrec. destruct Hrec as [_ [msg [-> Hr2]]].
    assert (He1 : List.filter is_secret_op e1 = []).
    { destruct (decrypted_events _ _ _ _ _ _ Hdec) as [-> | [data ->]]; reflexivity. }
    destruct r2 as [success|err].
    + destruct Hcase as [evs3 [-> Hafter]].
      apply afterReconcile_events, restore_or_iam_not_secret_op, filter_none in Hafter.
      rewrite !List.filter_app, He1, Hafter. reflexivity.
    + destruct Hcase as [_ [_ ->]]. rewrite List.filter_app, He1. reflexivity.
  - intros Hlabels. unfold addLabelsIfNeeded.
    destruct (labels (__gcp_metadata fc)); [congruence | reflexivity].
Qed.

(** C6. The unit of work of a secret that exists remotely adds a version
    whatever the payload is, and a label update, when there is one, is the
    first operation on the secret, with the version add right after it:
    with the same labels the version add is the first operation; with
    other labels the label update is, and the version add follows as soon
    as the update command returns (if that command throws, the unit ends
    on it). *)
Theorem C6_version_added_after_label_update existing file fc se d h r d' evs :
  filteredOut options (secretNameOf W file) = false ->
  getFileContent W d file = Returned fc ->
  (status (__gcp_metadata fc) = "encrypted" ->
   exists data, decryptFile W fc true = Returned data) ->
  find (fun s => String.eqb (secret_name s) (secretNameOf W file)) existing = Some se ->
  deployFile W options existing file d h = (r, d', evs) ->
  let update := Exec (SecretsUpdate (secretNameOf W file)
    (addLabelsIfNeeded (labels (__gcp_metadata fc)) false) opts) in
  let add := Exec (VersionsAdd (secretNameOf W file) file opts) in
  (existingLabelsOf se = labels (__gcp_metadata fc) ->
   exists pre rest,
     evs = pre ++ add :: rest /\ Forall (fun e => is_secret_op e = false) pre)
  /\
  (existingLabelsOf se <> labels (__gcp_metadata fc) ->
   exists pre rest,
     evs = pre ++ update :: rest /\
     Forall (fun e => is_secret_op e = false) pre /\
     match execCommand_result W (h ++ pre ++ [update]) with
     | Returned _ => exists rest', rest = add :: rest'
     | Thrown err => rest = [] /\ r = Thrown err
     end).
Proof.
  intros Hfilter Hread Hdecrypt Hfind Hrun update add.
  apply (deployFile_existing_run W options existing file fc se) in Hrun; [|assumption..].
  destruct Hrun as [e1 [d1 [r1 [el [Hdec [Hlabel Hcase]]]]]].
  fold opts add in Hcase.
  assert (He1 : Forall (fun e => is_secret_op e = false) e1).
  { apply decrypted_quiet in Hdec. revert Hdec. apply List.Forall_impl. tauto. }
  apply labelStep_run in Hlabel. destruct Hlabel as [_ Hlabel]. fold opts update in Hlabel.
  split; intros Hlabels.
  - apply labelsDiffer_false in Hlabels. rewrite Hlabels in Hlabel.
    destruct Hlabel as [-> ->]. exists e1. cbn [app] in Hcase.
    destruct (execCommand_version W _) as [name|err].
    + destruct Hcase as [r3 [e3 [_ Hcase]]]. destruct r3 as [[]|err].
      * destruct Hcase as [evs3 [-> _]]. eexists. split; [reflexivity | exact He1].
      * destruct Hcase as [_ ->]. eexists. split; [reflexivity | exact He1].
    + destruct Hcase as [_ ->]. eexists. split; [reflexivity | exact He1].
  - apply labelsDiffer_true in Hlabels. rewrite Hlabels in Hlabel.
    destruct Hlabel as [msg [-> Hcall]].
    assert (Hpre : Forall (fun e => is_secret_op e = false) (e1 ++ [LogInfo msg])).
    { apply List.Forall_app. split; [exact He1 | repeat constructor]. }
    assert (Heq : h ++ (e1 ++ [LogInfo msg]) ++ [update]
                  = (h ++ e1) ++ [LogInfo msg; update])
      by (now rewrite <- !app_assoc).
    assert (Hevs : forall tail, e1 ++ [LogInfo msg; update] ++ tail
                                = (e1 ++ [LogInfo msg]) ++ update :: tail)
      by (intros; now rewrite <- app_assoc).
    exists (e1 ++ [LogInfo msg]). rewrite Heq.
    destruct (execCommand_result W ((h ++ e1) ++ [LogInfo msg; update])) as [b|err];
      subst r1.
    + destruct (execCommand_version W _) as [name|err].
      * destruct Hcase as [r3 [e3 [_ Hcase]]]. destruct r3 as [[]|err].
        -- destruct Hcase as [evs3 [-> _]]. eexists.
           split; [apply Hevs|]. split; [exact Hpre|]. eauto.
        -- destruct Hcase as [_ ->]. eexists.
           split; [apply Hevs|]. split; [exact Hpre|]. eauto.
      * destruct Hcase as [_ ->]. eexists.
        split; [apply Hevs|]. split; [exact Hpre|]. eauto.
    + destruct Hcase as [-> ->]. exists [].
      split; [now rewrite <- app_assoc|]. split; [exact Hpre|]. now split.
Qed.



(** C9. Once the listing has returned, the success flag of the run is
    the conjunction of the outcomes of the units of work of all the
    declared files; the unit of a file that the [secret] option filters
    out returns [true] at once and does nothing; and when the option
    filters out every declared file the run reports success, the listing
    being the only command it has run. *)
Theorem C9_success_is_conjunction sourceRoot d h listed :
  isEncryptionKeySet W = true ->
  let list := Exec (SecretsList opts) in
  execCommand_secrets W (h ++ [list]) = Returned listed ->
  let files := getAllSecretFiles W sourceRoot in
  let unit := deployFile W options (map shortName listed) in
  let promises := (mapAsync unit files d (h ++ [list])).1.1 in
  (deployExecutor W options sourceRoot d h).1.1 = forallb succeeded promises /\
  length promises = length files /\
  (forall file d0 h0,
     filteredOut options (secretNameOf W file) = true ->
     unit file d0 h0 = (Returned true, d0, [])) /\
  (forall i file,
     files !! i = Some file ->
     filteredOut options (secretNameOf W file) = true ->
     promises !! i = Some (Returned true)) /\
  ((forall file, In file files -> filteredOut options (secretNameOf W file) = true) ->
   deployExecutor W options sourceRoot d h = (true, d, [list])).
Proof.
  intros Hkey list Hlisted files unit promises.
  assert (Hskip : forall file d0 h0,
    filteredOut options (secretNameOf W file) = true ->
    unit file d0 h0 = (Returned true, d0, [])).
  { intros file d0 h0 Hout. unfold unit, deployFile. cbv zeta. now rewrite Hout. }
  pose proof (mapAsync_length unit files d (h ++ [list])) as Hlen.
  pose proof (mapAsync_lookup unit files d (h ++ [list])) as Hlookup.
  fold promises in Hlen, Hlookup.
  destruct (mapAsync unit files d (h ++ [list])) as [[ps d1] e1] eqn:Hmap.
  cbn [fst] in promises. subst promises.
  destruct (deployExecutor_run W options sourceRoot d h listed _ _ _ Hkey Hlisted Hmap)
    as [tail [Hrun Htail]].
  split; [|split; [|split; [|split]]].
  - now rewrite Hrun.
  - exact Hlen.
  - exact Hskip.
  - intros i file Hi Hout.
    destruct (Hlookup i file Hi) as [d0 [h0 Hp]].
    rewrite Hp. now rewrite (Hskip file d0 h0 Hout).
  - intros Hall.
    rewrite (mapAsync_skipped unit files d (h ++ [list])) in Hmap.
    2:{ intros file Hin d0 h0. apply Hskip. now apply Hall. }
    inversion Hmap; subst ps d1 e1. rewrite Hrun.
    assert (Hps : forallb succeeded (map (fun _ : string => Returned true) files) = true).
    { apply forallb_forall. intros p Hp. apply in_map_iff in Hp.
      now destruct Hp as [? [<- _]]. }
    rewrite Hps. destruct Htail as [-> | [err [Hin _]]]; [reflexivity|].
    apply forallb_succeeded_Thrown in Hin. congruence.
Qed.

(** C10. When the unit of an encrypted definition returns, what was
    written back is the content that was read before decryption, that
    write comes before every IAM call of the unit, and the two writes
    (decrypted, then original) are the only ones; the unit of a definition
    that is not encrypted writes nothing. *)
Theorem C10_restore_original_before_iam existing file fc d h r d' evs :
  filteredOut options (secretNameOf W file) = false ->
  getFileContent W d file = Returned fc ->
  deployFile W options existing file d h = (r, d', evs) ->
  (status (__gcp_metadata fc) = "encrypted" ->
   forall b, r = Returned b ->
   exists data pre post,
     decryptFile W fc true = Returned data /\
     evs = Stored file (Decrypted data) :: pre
           ++ Stored file (Definition_ fc) :: post /\
     Forall (fun e => is_stored e = false /\ is_iam e = false) pre /\
     Forall (fun e => is_stored e = false) post /\
     d' !! file = Some (Definition_ fc))
  /\
  (status (__gcp_metadata fc) <> "encrypted" ->
   Forall (fun e => is_stored e = false) evs /\ d' = d).
Proof.
  intros Hfilter Hread Hrun.
  apply (deployFile_run W options existing file fc) in Hrun; [|assumption..].
  split.
  - intros Henc b ->. apply String.eqb_eq in Henc.
    destruct Hrun as [[_ [err [_ [Hr _]]]] | [e1 [d1 [r2 [e2 [Hdec [Hrec Hcase]]]]]]];
      [discriminate|].
    unfold decrypted in Hdec. rewrite Henc in Hdec.
    destruct Hdec as [data [Hdata [-> ->]]].
    apply reconcile_events, reconcile_event_quiet in Hrec.
    destruct r2 as [success|err]; [|destruct Hcase as [Hr _]; discriminate].
    destruct Hcase as [evs3 [-> Hafter]].
    unfold afterReconcile, restored in Hafter. rewrite Henc in Hafter.
    destruct Hafter as [-> Hcase].
    exists data, e2.
    destruct (serviceAccounts (__gcp_metadata fc)) as [allowed|].
    + destruct Hcase as [r4 [e4 [Hiam [-> _]]]]. exists e4.
      apply manageServiceAccounts_events in Hiam.
      repeat split; try assumption.
      * revert Hiam. apply List.Forall_impl. tauto.
      * apply lookup_insert_eq.
    + destruct Hcase as [_ ->]. exists [].
      repeat split; try assumption; [constructor | apply lookup_insert_eq].
  - intros Henc. apply String.eqb_neq in Henc.
    destruct Hrun as [[Habs _] | [e1 [d1 [r2 [e2 [Hdec [Hrec Hcase]]]]]]];
      [congruence|].
    unfold decrypted in Hdec. rewrite Henc in Hdec. destruct Hdec as [-> ->].
    apply reconcile_events, reconcile_event_quiet in Hrec.
    assert (He2 : Forall (fun e => is_stored e = false) e2)
      by (revert Hrec; apply List.Forall_impl; tauto).
    destruct r2 as [success|err]; [|destruct Hcase as [_ [-> ->]]; now split].
    destruct Hcase as [evs3 [-> Hafter]].
    unfold afterReconcile, restored in Hafter. rewrite Henc in Hafter.
    destruct Hafter as [-> Hcase]. split; [|reflexivity]. cbn [app].
    apply List.Forall_app. split; [exact He2|].
    destruct (serviceAccounts (__gcp_metadata fc)) as [allowed|].
    + destruct Hcase as [r4 [e4 [Hiam [-> _]]]].
      apply manageServiceAccounts_events in Hiam.
      revert Hiam. apply List.Forall_impl. tauto.
    + destruct Hcase as [_ ->]. constructor.
Qed.

End Claims.

(** ** The properties at work on the concrete workspace *)

(** C1 fails on the executor.  The version add of [db] throws: the unit
    of the encrypted file [secrets/db.json] ends there with the decrypted
    content on disk, the write of lines 156-159 ("Store the encrypted file
    again") is not reached, and nothing in the rest of the run writes the
    encrypted content back.  Where the create command reports failure
    instead, the same unit does write it back. *)
Theorem C1_plaintext_left_when_version_add_throws :
  let file := "secrets/db.json" in
  let unit := deployFile Scenario.versionAddFails Scenario.acme Scenario.existing
                file Scenario.files [] in
  let run := deployExecutor Scenario.versionAddFails Scenario.acme "apps/web/src"
               Scenario.files [] in
  let sibling := deployFile Scenario2.createRefused Scenario.acme [] file
                   Scenario.files [] in
  getFileContent Scenario.versionAddFails Scenario.files file = Returned Scenario.dbFile /\
  status (__gcp_metadata Scenario.dbFile) = "encrypted" /\
  unit.1.1 = Thrown "gcloud: PERMISSION_DENIED" /\
  unit.1.2 !! file = Some (Decrypted "plain:c2VjcmV0") /\
  ~ In (Stored file (Definition_ Scenario.dbFile)) unit.2 /\
  run.1.1 = false /\
  run.1.2 !! file = Some (Decrypted "plain:c2VjcmV0") /\
  sibling.1.1 = Returned false /\
  sibling.1.2 !! file = Some (Definition_ Scenario.dbFile).
Proof.
  vm_compute. repeat split; try reflexivity.
  intros [H | [H | [H | [H | []]]]]; discriminate H.
Qed.

(** C2 at work: the version add of [db] throws, [api] is created all the
    same, and the run reports failure. *)
Lemma C2_witness :
  let run := deployExecutor Scenario.versionAddFails Scenario.acme "apps/web/src"
               Scenario.files [] in
  run.1.1 = false /\
  In (Exec (SecretsCreate "api" "secrets/api.json" ["--clear-labels"] ["--project=acme"]))
     run.2.
Proof.
  pose proof (C2_errors_stay_with_their_secret Scenario.versionAddFails Scenario.acme
                "apps/web/src" Scenario.files [] eq_refl) as H.
  hnf in H. specialize (H [] "secrets/db.json" ["secrets/api.json"] eq_refl).
  hnf in H. destruct H as [tail [Hrun _]].
  cbv zeta. rewrite Hrun. split.
  - reflexivity.
  - vm_compute. do 6 right. left. reflexivity.
Defined.

(** C3 as stated fails: [db] is declared with labels [a=1, b=2], the remote
    secret has the same pairs in the order [b, a], and the labels are
    updated all the same; likewise with [b=2, a=1] declared against a
    remote label object in alphabetical order. *)
Lemma C3_counterexample :
  let update := fun labelFlags opts => Exec (SecretsUpdate "db" labelFlags opts) in
  (labels (__gcp_metadata Scenario.dbFile) = ["a=1"; "b=2"] /\
   map existingLabelsOf Scenario.existing = [["b=2"; "a=1"]] /\
   Permutation ["b=2"; "a=1"] (labels (__gcp_metadata Scenario.dbFile)) /\
   In (update ["--clear-labels"; "--update-labels=a=1,b=2"] ["--project=acme"])
      (deployFile Scenario.healthy Scenario.acme Scenario.existing
         "secrets/db.json" Scenario.files []).2)
  /\
  (labels (__gcp_metadata Scenario.dbFileReversed) = ["b=2"; "a=1"] /\
   map existingLabelsOf Scenario.alphabetical = [["a=1"; "b=2"]] /\
   Permutation ["a=1"; "b=2"] (labels (__gcp_metadata Scenario.dbFileReversed)) /\
   In (update ["--clear-labels"; "--update-labels=b=2,a=1"] ["--project=acme"])
      (deployFile Scenario.healthy Scenario.acme Scenario.alphabetical
         "secrets/db.json" Scenario.filesReversed []).2).
Proof.
  split; (split; [reflexivity|]); (split; [reflexivity|]);
    (split; [apply perm_swap|]); vm_compute.
  - right; right; left. reflexivity.
  - right; left. reflexivity.
Qed.

(** C3 at work: the same definition against remote labels in the declared
    order. *)
Lemma C3_witness :
  let se := {| secret_name := "db"; secret_labels := Some [("a", "1"); ("b", "2")] |} in
  List.filter is_updateLabels
    (deployFile Scenario.healthy Scenario.acme [se] "secrets/db.json" Scenario.files []).2
  = [].
Proof.
  intros se.
  pose (run := deployFile Scenario.healthy Scenario.acme [se] "secrets/db.json"
                 Scenario.files []).
  refine (proj1 (C3_labels_compared_as_sequences Scenario.healthy Scenario.acme [se]
            "secrets/db.json" Scenario.dbFile se Scenario.files []
            run.1.1 run.1.2 run.2 _ _ _ _ _) _).
  - reflexivity.
  - reflexivity.
  - intros _. exists "plain:c2VjcmV0". reflexivity.
  - reflexivity.
  - vm_compute. reflexivity.
  - reflexivity.
Defined.

(** C4 at work: the version add of [db] throws. *)
Lemma C4_witness :
  let unit := deployFile Scenario.versionAddFails Scenario.acme Scenario.existing
                "secrets/db.json" Scenario.files [] in
  unit.1.1 = Thrown "gcloud: PERMISSION_DENIED" /\
  Forall (fun e => is_retireVersion e = false /\ is_iam e = false) unit.2.
Proof.
  pose (unit := deployFile Scenario.versionAddFails Scenario.acme Scenario.existing
                  "secrets/db.json" Scenario.files []).
  pose (pre := [ Stored "secrets/db.json" (Decrypted "plain:c2VjcmV0");
                 LogInfo ("Updating " +:+ q +:+ "db" +:+ q +:+ " it's labels");
                 Exec (SecretsUpdate "db" ["--clear-labels"; "--update-labels=a=1,b=2"]
                         ["--project=acme"]) ]).
  destruct (C4_failed_version_add_ends_unit Scenario.versionAddFails Scenario.acme
              Scenario.existing "secrets/db.json" Scenario.dbFile
              {| secret_name := "db"; secret_labels := Some [("b", "2"); ("a", "1")] |}
              Scenario.files [] unit.1.1 unit.1.2 unit.2 pre []
              "gcloud: PERMISSION_DENIED")
    as [_ [Hr [Hquiet _]]].
  - reflexivity.
  - reflexivity.
  - reflexivity.
  - vm_compute. reflexivity.
  - vm_compute. reflexivity.
  - reflexivity.
  - split; assumption.
Defined.

(** C5 at work: [db] is unknown to the remote service. *)
Lemma C5_witness :
  List.filter is_secret_op
    (deployFile Scenario.healthy Scenario.acme [] "secrets/db.json" Scenario.files []).2
  = [Exec (SecretsCreate "db" "secrets/db.json" ["--labels=a=1,b=2"] ["--project=acme"])].
Proof.
  pose (run := deployFile Scenario.healthy Scenario.acme [] "secrets/db.json" Scenario.files []).
  apply (C5_missing_secret_created_once Scenario.healthy Scenario.acme []
           "secrets/db.json" Scenario.dbFile Scenario.files [] run.1.1 run.1.2 run.2).
  - reflexivity.
  - reflexivity.
  - intros _. exists "plain:c2VjcmV0". reflexivity.
  - intros s [].
  - vm_compute. reflexivity.
Defined.

(** C6 at work: the labels of [db] differ, they are updated and the version
    is added next. *)
Lemma C6_witness :
  exists pre rest,
    (deployFile Scenario.healthy Scenario.acme Scenario.existing
       "secrets/db.json" Scenario.files []).2
    = pre ++ Exec (SecretsUpdate "db" ["--clear-labels"; "--update-labels=a=1,b=2"]
                     ["--project=acme"])
          :: Exec (VersionsAdd "db" "secrets/db.json" ["--project=acme"]) :: rest.
Proof.
  pose (unit := deployFile Scenario.healthy Scenario.acme Scenario.existing
                  "secrets/db.json" Scenario.files []).
  destruct (C6_version_added_after_label_update Scenario.healthy Scenario.acme
              Scenario.existing "secrets/db.json" Scenario.dbFile
              {| secret_name := "db"; secret_labels := Some [("b", "2"); ("a", "1")] |}
              Scenario.files [] unit.1.1 unit.1.2 unit.2)
    as [_ Hdiffer].
  - reflexivity.
  - reflexivity.
  - intros _. exists "plain:c2VjcmV0". reflexivity.
  - reflexivity.
  - vm_compute. reflexivity.
  - destruct Hdiffer as [pre [rest [Hevs [_ Hnext]]]]; [discriminate|].
    hnf in Hnext. destruct Hnext as [rest' ->].
    exists pre, rest'. exact Hevs.
Defined.





(** C9 at work: the [secret] option names a secret that no file declares. *)
Lemma C9_witness :
  deployExecutor Scenario.healthy Scenario.onlyOther "apps/web/src" Scenario.files []
  = (true, Scenario.files, [Exec (SecretsList [])]).
Proof.
  refine (proj2 (proj2 (proj2 (proj2 (C9_success_is_conjunction Scenario.healthy
            Scenario.onlyOther "apps/web/src" Scenario.files [] Scenario.listed
            eq_refl eq_refl)))) _).
  intros file [<- | [<- | []]]; reflexivity.
Defined.

(** C10 at work: the two writes of the healthy run of [db]. *)
Lemma C10_witness :
  exists data pre post,
    (deployFile Scenario.healthy Scenario.acme Scenario.existing
       "secrets/db.json" Scenario.files []).2
    = Stored "secrets/db.json" (Decrypted data) :: pre
      ++ Stored "secrets/db.json" (Definition_ Scenario.dbFile) :: post /\
    Forall (fun e => is_stored e = false /\ is_iam e = false) pre /\
    Forall (fun e => is_stored e = false) post.
Proof.
  pose (unit := deployFile Scenario.healthy Scenario.acme Scenario.existing
                  "secrets/db.json" Scenario.files []).
  destruct (C10_restore_original_before_iam Scenario.healthy Scenario.acme
              Scenario.existing "secrets/db.json" Scenario.dbFile
              Scenario.files [] unit.1.1 unit.1.2 unit.2)
    as [Henc _].
  - reflexivity.
  - reflexivity.
  - vm_compute. reflexivity.
  - destruct (Henc eq_refl true) as [data [pre [post [_ [Hevs [Hpre [Hpost _]]]]]]].
    + vm_compute. reflexivity.
    + exists data, pre, post. repeat split; assumption.
Defined.

(** * Further properties of the executor *)

(** ** The unit of work, whatever its input *)

(** The unit of work of any file: it ends before its first event (filtered
    out, unreadable or not decryptable), or it goes through the phases. *)
Lemma deployFile_shape W options existing file d h r d' evs :
  deployFile W options existing file d h = (r, d', evs) ->
  (d' = d /\ evs = [] /\
   ((filteredOut options (secretNameOf W file) = true /\ r = Returned true) \/
    (filteredOut options (secretNameOf W file) = false /\ exists err, r = Thrown err)))
  \/
  (filteredOut options (secretNameOf W file) = false /\
   exists fc e1 d1 r2 e2 evs3,
     getFileContent W d file = Returned fc /\
     decrypted W file fc d e1 d1 /\
     reconcile W options existing file fc d1 (h ++ e1) = (r2, d1, e2) /\
     evs = e1 ++ e2 ++ evs3 /\
     match r2 with
     | Thrown err => evs3 = [] /\ r = Thrown err /\ d' = d1
     | Returned success =>
         afterReconcile W options file fc d1 (h ++ e1 ++ e2) success r d' evs3
     end).
Proof.
  intros Hrun.
  destruct (filteredOut options (secretNameOf W file)) eqn:Hfilter.
  - left. unfold deployFile in Hrun. cbv zeta in Hrun. rewrite Hfilter in Hrun.
    rewrite ret_run in Hrun. inversion Hrun; subst. repeat split; auto.
  - destruct (getFileContent W d file) as [fc|err] eqn:Hread.
    + destruct (deployFile_run W options existing file fc d h r d' evs Hfilter Hread Hrun)
        as [[_ [err [_ [-> [-> ->]]]]] | [e1 [d1 [r2 [e2 [Hdec [Hrec Hcase]]]]]]].
      * left. repeat split; eauto.
      * right. split; [reflexivity|]. destruct r2 as [success|err].
        -- destruct Hcase as [evs3 [-> Haft]].
           exists fc, e1, d1, (Returned success), e2, evs3. auto.
        -- destruct Hcase as [-> [-> ->]].
           exists fc, e1, d1, (Thrown err), e2, []. rewrite app_nil_r. auto 10.
    + left. unfold deployFile in Hrun. cbv zeta in Hrun. rewrite Hfilter in Hrun.
      rewrite bind_run in Hrun. rewrite Hread in Hrun. inversion Hrun; subst. eauto 10.
Qed.

(** The events of the reconcile phase, spelled out. *)
Lemma reconcile_shape W options existing file fc d h r d' evs :
  reconcile W options existing file fc d h = (r, d', evs) ->
  let n := secretNameOf W file in
  let o := getCommandOptions options in
  let lf := addLabelsIfNeeded (labels (__gcp_metadata fc)) in
  (exists msg, evs = [LogInfo msg; Exec (SecretsCreate n file (lf true) o)])
  \/
  exists el e3,
    evs = el ++ e3 /\
    (el = [] \/ exists msg, el = [LogInfo msg; Exec (SecretsUpdate n (lf false) o)]) /\
    (e3 = [] \/
     exists e4, e3 = Exec (VersionsAdd n file o) :: e4 /\
       (e4 = [] \/ (exists msg, e4 = [LogWarn msg]) \/
        exists msg ub pv, e4 = [LogInfo msg; Exec (VersionsRetire ub pv n o)])).
Proof.
  intros Hrun n o lf. unfold reconcile in Hrun.
  destruct (find _ existing) as [se|].
  - right. apply updateSecret_run in Hrun.
    destruct Hrun as [_ [r1 [el [Hlabel Hcase]]]].
    assert (Hel : el = [] \/ exists msg, el = [LogInfo msg; Exec (SecretsUpdate n (lf false) o)]).
    { apply labelStep_run in Hlabel. destruct Hlabel as [_ Hlabel].
      destruct (labelsDiffer se fc).
      - destruct Hlabel as [msg [-> _]]. right. now exists msg.
      - destruct Hlabel as [-> _]. now left. }
    destruct r1 as [[]|err].
    + destruct (execCommand_version W _) as [name|err].
      * destruct Hcase as [r3 [e4 [Hretire [-> _]]]].
        exists el, (Exec (VersionsAdd n file o) :: e4). split; [reflexivity|].
        split; [exact Hel|]. right. exists e4. split; [reflexivity|].
        apply retireStep_run in Hretire. destruct Hretire as [_ Hretire].
        destruct Hretire as [[_ [-> _]] | [[_ [msg [-> _]]] | [_ [_ [_ [[msg ->] _]]]]]].
        -- now left.
        -- right; right. eauto.
        -- right; left. eauto.
      * destruct Hcase as [_ ->]. exists el, [Exec (VersionsAdd n file o)].
        split; [reflexivity|]. split; [exact Hel|]. right. exists []. auto.
    + destruct Hcase as [_ ->]. exists el, []. rewrite app_nil_r. auto.
  - left. apply createSecret_run in Hrun. destruct Hrun as [_ [msg [-> _]]]. now exists msg.
Qed.

(** Every event of the IAM phase: the policy read, a log line, or a
    binding change for a member of one of the two differences. *)
Lemma manageServiceAccounts_members W options n allowed d h r d' evs e :
  manageServiceAccounts W options n allowed d h = (r, d', evs) ->
  In e evs ->
  let o := getCommandOptions options in
  e = Exec (GetIamPolicy n o) \/ (exists msg, e = LogInfo msg) \/
  exists policy,
    execCommand_policy W (h ++ [Exec (GetIamPolicy n o)]) = Returned policy /\
    ((exists m, e = Exec (AddIamPolicyBinding n m o) /\
        In m (serviceAccountsToAdd allowed (existingServiceAccountsOf policy))) \/
     (exists m, e = Exec (RemoveIamPolicyBinding n m o) /\
        In m (serviceAccountsToDelete allowed (existingServiceAccountsOf policy)))).
Proof.
  intros Hrun Hin o. apply manageServiceAccounts_run in Hrun.
  destruct Hrun as [_ [tail [-> [Hall Hcase]]]].
  destruct Hin as [<- | Hin]; [now left|].
  right. rewrite List.Forall_forall in Hall.
  destruct (Hall e Hin) as [Hbc | Hmsg]; [|now left].
  right. fold o in Hcase. destruct (execCommand_policy W _) as [policy|err].
  - exists policy. split; [reflexivity|]. cbv zeta in Hcase.
    destruct Hcase as [rest [Heq _]].
    assert (Hin' : In e (List.filter is_binding_change tail ++ rest)).
    { apply in_or_app. left. apply List.filter_In. now split. }
    rewrite <- Heq in Hin'. apply in_app_or in Hin'.
    destruct Hin' as [H|H]; apply in_map_iff in H; destruct H as [m [<- Hm]]; eauto.
  - destruct Hcase as [-> _]. destruct Hin.
Qed.

(** The restore and IAM phases, spelled out. *)
Lemma afterReconcile_shape W options file fc d1 h2 success r d' evs3 :
  afterReconcile W options file fc d1 h2 success r d' evs3 ->
  exists e3 e4,
    evs3 = e3 ++ e4 /\ restored file fc d1 = (e3, d') /\
    match serviceAccounts (__gcp_metadata fc) with
    | None => e4 = [] /\ r = Returned success
    | Some allowed =>
        exists r4,
          manageServiceAccounts W options (secretNameOf W file) allowed d' (h2 ++ e3)
            = (r4, d', e4) /\
          r = match r4 with
              | Returned _ => Returned success
              | Thrown err => Thrown err
              end
    end.
Proof.
  unfold afterReconcile. destruct (restored file fc d1) as [e3 d3]. intros [-> H].
  destruct (serviceAccounts _).
  - destruct H as [r4 [e4 [Hrun [-> ->]]]]. exists e3, e4. eauto.
  - destruct H as [-> ->]. exists e3, []. rewrite app_nil_r. auto.
Qed.

Lemma restored_cases file fc d1 e3 d3 :
  restored file fc d1 = (e3, d3) ->
  (e3 = [] /\ d3 = d1 /\ String.eqb (status (__gcp_metadata fc)) "encrypted" = false)
  \/ (e3 = [Stored file (Definition_ fc)] /\ d3 = <[file := Definition_ fc]> d1 /\
      String.eqb (status (__gcp_metadata fc)) "encrypted" = true).
Proof.
  unfold restored. destruct (String.eqb _ _); intros H; inversion H; subst; auto.
Qed.

(** *** Every event belongs to the file at hand *)

Lemma decrypted_about W options file fc d e1 d1 :
  decrypted W file fc d e1 d1 -> Forall (about W options file) e1.
Proof.
  intros H. apply decrypted_events in H. destruct H as [-> | [data ->]].
  - constructor.
  - constructor; [reflexivity | constructor].
Qed.

Lemma reconcile_about W options existing file fc d h r d' evs :
  reconcile W options existing file fc d h = (r, d', evs) ->
  Forall (about W options file) evs.
Proof.
  intros H. apply reconcile_shape in H. cbv zeta in H.
  destruct H as [[msg ->] | [el [e3 [-> [Hel He3]]]]].
  - repeat constructor.
  - apply List.Forall_app. split.
    + destruct Hel as [-> | [msg ->]]; repeat constructor.
    + destruct He3 as [-> | [e4 [-> He4]]]; [constructor|].
      constructor; [now split|].
      destruct He4 as [-> | [[msg ->] | [msg [ub [pv ->]]]]]; repeat constructor.
Qed.

Lemma afterReconcile_about W options file fc d1 h2 success r d' evs3 :
  afterReconcile W options file fc d1 h2 success r d' evs3 ->
  Forall (about W options file) evs3.
Proof.
  intros H. apply afterReconcile_shape in H.
  destruct H as [e3 [e4 [-> [Hres Hiam]]]].
  apply List.Forall_app. split.
  - apply restored_cases in Hres.
    destruct Hres as [[-> _] | [-> _]]; repeat constructor.
  - destruct (serviceAccounts _) as [allowed|].
    + destruct Hiam as [r4 [Hrun _]]. apply List.Forall_forall. intros e Hin.
      destruct (manageServiceAccounts_members _ _ _ _ _ _ _ _ _ e Hrun Hin)
        as [-> | [[msg ->] | [policy [_ [[m [-> _]] | [m [-> _]]]]]]];
        cbn; auto.
    + destruct Hiam as [-> _]. constructor.
Qed.

Lemma deployFile_about W options existing file d h :
  Forall (fun e => filteredOut options (secretNameOf W file) = false /\
                   about W options file e)
    (deployFile W options existing file d h).2.
Proof.
  destruct (deployFile W options existing file d h) as [[r d'] evs] eqn:Hrun.
  cbn [snd]. apply deployFile_shape in Hrun.
  destruct Hrun as [[_ [-> _]] | [Hf [fc [e1 [d1 [r2 [e2 [evs3 Hrun]]]]]]]];
    [constructor|].
  destruct Hrun as [_ [Hdec [Hrec [-> Hcase]]]].
  apply (List.Forall_impl (P := about W options file)); [now split|].
  apply List.Forall_app. split; [now apply (decrypted_about _ _ _ _ _ _ _ Hdec)|].
  apply List.Forall_app. split; [now apply (reconcile_about _ _ _ _ _ _ _ _ _ _ Hrec)|].
  destruct r2 as [success|err].
  - now apply (afterReconcile_about _ _ _ _ _ _ _ _ _ _ Hcase).
  - destruct Hcase as [-> _]. constructor.
Qed.

(** *** Frames on the disk *)

Lemma deployFile_frame W options existing file d h f' :
  f' <> file ->
  (deployFile W options existing file d h).1.2 !! f' = d !! f'.
Proof.
  intros Hne.
  destruct (deployFile W options existing file d h) as [[r d'] evs] eqn:Hrun.
  cbn [fst snd]. apply deployFile_shape in Hrun.
  destruct Hrun as [[-> _] | [_ [fc [e1 [d1 [r2 [e2 [evs3 Hrun]]]]]]]];
    [reflexivity|].
  destruct Hrun as [_ [Hdec [_ [_ Hcase]]]].
  assert (Hd1 : d1 !! f' = d !! f').
  { unfold decrypted in Hdec. destruct (String.eqb _ _).
    - destruct Hdec as [data [_ [_ ->]]]. now apply lookup_insert_ne.
    - now destruct Hdec as [_ ->]. }
  destruct r2 as [success|err].
  - apply afterReconcile_shape in Hcase. destruct Hcase as [e3 [e4 [_ [Hres _]]]].
    apply restored_cases in Hres. destruct Hres as [[_ [-> _]] | [_ [-> _]]].
    + exact Hd1.
    + rewrite lookup_insert_ne; [exact Hd1 | congruence].
  - now destruct Hcase as [_ [_ ->]].
Qed.

(** *** The fan-out, event by event and file by file *)

Lemma mapAsync_events (Q : string -> event -> Prop) f l d h :
  (forall file d h, In file l -> Forall (Q file) (f file d h).2) ->
  Forall (fun e => exists file, In file l /\ Q file e) (mapAsync f l d h).2.
Proof.
  revert d h. induction l as [|x l IH]; intros d h Hall; [constructor|].
  cbn [mapAsync]. pose proof (Hall x d h (or_introl eq_refl)) as Hx.
  destruct (f x d h) as [[p d1] e1]. cbn [snd] in Hx.
  specialize (IH d1 (h ++ e1) (fun file d h Hin => Hall file d h (or_intror Hin))).
  destruct (mapAsync f l d1 (h ++ e1)) as [[ps d2] e2]. cbn [snd] in IH |- *.
  apply List.Forall_app. split.
  - revert Hx. apply List.Forall_impl. intros e He. exists x. split; [now left | exact He].
  - revert IH. apply List.Forall_impl. intros e [file [Hin He]].
    exists file. split; [now right | exact He].
Qed.

Lemma mapAsync_frame f l d h f' :
  (forall file d h, In file l -> (f file d h).1.2 !! f' = d !! f') ->
  (mapAsync f l d h).1.2 !! f' = d !! f'.
Proof.
  revert d h. induction l as [|x l IH]; intros d h Hall; [reflexivity|].
  cbn [mapAsync]. pose proof (Hall x d h (or_introl eq_refl)) as Hx.
  destruct (f x d h) as [[p d1] e1]. cbn [fst snd] in Hx.
  specialize (IH d1 (h ++ e1) (fun file d h Hin => Hall file d h (or_intror Hin))).
  destruct (mapAsync f l d1 (h ++ e1)) as [[ps d2] e2]. cbn [fst snd] in IH |- *.
  congruence.
Qed.

(** The three ways a run goes: no key, a listing that throws, or the
    fan-out over the declared files. *)
Lemma deployExecutor_cases W options sourceRoot d h :
  let list := Exec (SecretsList (getCommandOptions options)) in
  (isEncryptionKeySet W = false /\
   deployExecutor W options sourceRoot d h = (true, d, []))
  \/
  (isEncryptionKeySet W = true /\
   exists err,
     execCommand_secrets W (h ++ [list]) = Thrown err /\
     deployExecutor W options sourceRoot d h
       = (false, d, [list; LogError ("Error happened trying to decrypt files: " +:+ err);
                    ConsoleError err]))
  \/
  (isEncryptionKeySet W = true /\
   exists listed ps d' evs tail,
     execCommand_secrets W (h ++ [list]) = Returned listed /\
     mapAsync (deployFile W options (map shortName listed))
       (getAllSecretFiles W sourceRoot) d (h ++ [list]) = (ps, d', evs) /\
     deployExecutor W options sourceRoot d h
       = (forallb succeeded ps, d', list :: evs ++ tail) /\
     (tail = [] \/
      exists err, In (Thrown err) ps /\
        tail = [LogError ("Error happened trying to decrypt files: " +:+ err);
                ConsoleError err])).
Proof.
  intros list. destruct (isEncryptionKeySet W) eqn:Hkey.
  - right. destruct (execCommand_secrets W (h ++ [list])) as [listed|err] eqn:Hlist.
    + right. split; [reflexivity|].
      destruct (mapAsync (deployFile W options (map shortName listed))
                  (getAllSecretFiles W sourceRoot) d (h ++ [list]))
        as [[ps d'] evs] eqn:Hmap.
      destruct (deployExecutor_run W options sourceRoot d h listed ps d' evs
                  Hkey Hlist Hmap) as [tail [Hrun Htail]].
      exists listed, ps, d', evs, tail. auto.
    + left. split; [reflexivity|]. exists err. split; [reflexivity|].
      unfold deployExecutor, tryBody. rewrite Hkey, bind_run.
      unfold execCommand at 1. fold list. rewrite Hlist. reflexivity.
  - left. split; [reflexivity|]. unfold deployExecutor. now rewrite Hkey.
Qed.

(** ** What a run does, and what it never does *)

Lemma about_not_list W options file e : about W options file e -> is_list e = false.
Proof.
  destruct e as [[]| | | | |]; cbn; try reflexivity. intros [H _]. discriminate.
Qed.

Lemma deployFile_skipped W options existing file d h :
  filteredOut options (secretNameOf W file) = true ->
  deployFile W options existing file d h = (Returned true, d, []).
Proof. intros Hf. unfold deployFile. cbv zeta. now rewrite Hf. Qed.

(** X1. Without an encryption key the run reports success and does
    nothing: no command, no log line, no file written.  With a key, the
    first event of the run is the listing command, built with the options
    of the run, and no other listing follows. *)
Theorem X1_listing_first_and_once W options sourceRoot d h :
  if isEncryptionKeySet W then
    exists tail,
      (deployExecutor W options sourceRoot d h).2
        = Exec (SecretsList (getCommandOptions options)) :: tail /\
      List.filter is_list tail = []
  else deployExecutor W options sourceRoot d h = (true, d, []).
Proof.
  destruct (deployExecutor_cases W options sourceRoot d h)
    as [[Hkey Hrun] | [[Hkey [err [_ Hrun]]] | [Hkey Hrun]]]; rewrite Hkey.
  - exact Hrun.
  - rewrite Hrun. eexists. split; reflexivity.
  - destruct Hrun as [listed [ps [d' [evs [tail [_ [Hmap [Hrun Htail]]]]]]]].
    rewrite Hrun. eexists. split; [reflexivity|].
    apply filter_none. apply List.Forall_app. split.
    + pose proof (mapAsync_events (fun _ e => is_list e = false)
                    (deployFile W options (map shortName listed))
                    (getAllSecretFiles W sourceRoot) d
                    (h ++ [Exec (SecretsList (getCommandOptions options))])) as Hall.
      rewrite Hmap in Hall. cbn [snd] in Hall.
      eapply List.Forall_impl; [|apply Hall].
      * now intros e [_ [_ He]].
      * intros file d0 h0 _.
        eapply List.Forall_impl; [|apply deployFile_about].
        intros e [_ He]. exact (about_not_list _ _ _ _ He).
    + destruct Htail as [-> | [err [_ ->]]]; repeat constructor.
Qed.

(** X2. Every event of the unit of work of a file belongs to that file:
    each command names the secret called after the file and carries the
    options of the run, and each write goes to the file itself. *)
Theorem X2_unit_events_belong_to_its_file W options existing file d h :
  Forall (about W options file) (deployFile W options existing file d h).2.
Proof.
  eapply List.Forall_impl; [|apply deployFile_about]. now intros e [_ He].
Qed.

Lemma deployExecutor_events W options sourceRoot d h :
  Forall (fun e =>
            e = Exec (SecretsList (getCommandOptions options)) \/ is_log e = true \/
            exists file,
              In file (getAllSecretFiles W sourceRoot) /\
              filteredOut options (secretNameOf W file) = false /\
              about W options file e)
    (deployExecutor W options sourceRoot d h).2.
Proof.
  destruct (deployExecutor_cases W options sourceRoot d h)
    as [[Hkey Hrun] | [[Hkey [err [_ Hrun]]] | [Hkey Hrun]]].
  - rewrite Hrun. constructor.
  - rewrite Hrun. repeat constructor; right; left; reflexivity.
  - destruct Hrun as [listed [ps [d' [evs [tail [_ [Hmap [Hrun Htail]]]]]]]].
    rewrite Hrun. cbn [snd]. constructor; [now left|].
    apply List.Forall_app. split.
    + pose proof (mapAsync_events
                    (fun file e => filteredOut options (secretNameOf W file) = false /\
                                   about W options file e)
                    (deployFile W options (map shortName listed))
                    (getAllSecretFiles W sourceRoot) d
                    (h ++ [Exec (SecretsList (getCommandOptions options))])) as Hall.
      rewrite Hmap in Hall. cbn [snd] in Hall.
      eapply List.Forall_impl; [|apply Hall].
      * intros e [file [Hin [Hf He]]]. right; right. now exists file.
      * intros file d0 h0 _. apply deployFile_about.
    + destruct Htail as [-> | [err [_ ->]]]; repeat constructor; right; left; reflexivity.
Qed.

(** X3. Every event of a run is the listing, a log line, or an event of a
    declared file that the [secret] filter lets through: the run runs no
    command on a secret that no file declares, and writes no other file. *)
Theorem X3_run_events_belong_to_declared_files W options sourceRoot d h :
  Forall (fun e =>
            e = Exec (SecretsList (getCommandOptions options)) \/ is_log e = true \/
            exists file,
              In file (getAllSecretFiles W sourceRoot) /\
              filteredOut options (secretNameOf W file) = false /\
              about W options file e)
    (deployExecutor W options sourceRoot d h).2.
Proof. apply deployExecutor_events. Qed.

(** X4. With the [secret] option set to a non-empty name, every command
    of the run other than the listing is about the secret of that name. *)
Theorem X4_secret_option_restricts_the_run W options sourceRoot d h s c :
  secret options = Some s -> s <> EmptyString ->
  In (Exec c) (deployExecutor W options sourceRoot d h).2 ->
  c = SecretsList (getCommandOptions options) \/ command_secret c = Some s.
Proof.
  intros Hs Hne Hin.
  pose proof (deployExecutor_events W options sourceRoot d h) as Hall.
  rewrite List.Forall_forall in Hall.
  destruct (Hall _ Hin) as [Heq | [Hlog | [file [_ [Hf [Hsecret _]]]]]].
  - left. congruence.
  - discriminate.
  - right. rewrite Hsecret. f_equal.
    unfold filteredOut in Hf. rewrite Hs in Hf.
    apply andb_false_iff in Hf. destruct Hf as [Hf | Hf].
    + apply negb_false_iff, String.eqb_eq in Hf. contradiction.
    + apply negb_false_iff, String.eqb_eq in Hf. now symmetry.
Qed.

(** X5. A run leaves every file alone that is not declared, or that the
    [secret] filter skips. *)
Theorem X5_run_writes_only_deployed_files W options sourceRoot d h f' :
  (In f' (getAllSecretFiles W sourceRoot) ->
   filteredOut options (secretNameOf W f') = true) ->
  (deployExecutor W options sourceRoot d h).1.2 !! f' = d !! f'.
Proof.
  intros Hskip.
  destruct (deployExecutor_cases W options sourceRoot d h)
    as [[Hkey Hrun] | [[Hkey [err [_ Hrun]]] | [Hkey Hrun]]].
  - now rewrite Hrun.
  - now rewrite Hrun.
  - destruct Hrun as [listed [ps [d' [evs [tail [_ [Hmap [Hrun Htail]]]]]]]].
    rewrite Hrun. cbn [fst snd].
    pose proof (mapAsync_frame (deployFile W options (map shortName listed))
                  (getAllSecretFiles W sourceRoot) d
                  (h ++ [Exec (SecretsList (getCommandOptions options))]) f') as Hframe.
    rewrite Hmap in Hframe. cbn [fst snd] in Hframe. apply Hframe.
    intros file d0 h0 Hin. destruct (string_dec f' file) as [<- | Hne].
    + now rewrite (deployFile_skipped _ _ _ _ _ _ (Hskip Hin)).
    + now apply deployFile_frame.
Qed.

(** ** The disk, once a unit has returned *)

(** A unit that returns leaves the disk as it found it, when the file
    read at line 67 is the one on disk. *)
Lemma deployFile_returned_disk W options existing file d h b d' evs :
  (forall fc, getFileContent W d file = Returned fc ->
              d !! file = Some (Definition_ fc)) ->
  deployFile W options existing file d h = (Returned b, d', evs) ->
  d' = d.
Proof.
  intros Hfaithful Hrun. apply deployFile_shape in Hrun.
  destruct Hrun as [[-> _] | [_ [fc [e1 [d1 [r2 [e2 [evs3 Hrun]]]]]]]];
    [reflexivity|].
  destruct Hrun as [Hread [Hdec [_ [_ Hcase]]]].
  destruct r2 as [success|err]; [|now destruct Hcase as [_ [? _]]].
  apply afterReconcile_shape in Hcase. destruct Hcase as [e3 [e4 [_ [Hres _]]]].
  apply restored_cases in Hres. unfold decrypted in Hdec.
  destruct Hres as [[_ [-> Henc]] | [_ [-> Henc]]]; rewrite Henc in Hdec.
  - now destruct Hdec as [_ ->].
  - destruct Hdec as [data [_ [_ ->]]].
    rewrite insert_insert_eq. apply insert_id. now apply Hfaithful.
Qed.

(** X6. Round trip on the disk, per unit: when [getFileContent] returns
    what the file holds, a unit of work that returns (with [true] or with
    [false]) leaves the disk exactly as it found it: the decrypted content
    written at line 72 has been replaced by the original at line 158. *)
Theorem X6_returned_unit_leaves_disk_as_found W options existing file d h b d' evs :
  (forall fc, getFileContent W d file = Returned fc ->
              d !! file = Some (Definition_ fc)) ->
  deployFile W options existing file d h = (Returned b, d', evs) ->
  d' = d.
Proof. apply deployFile_returned_disk. Qed.

Lemma mapAsync_returned_disk W options existing l d h ps d' evs :
  (forall d0 file fc, getFileContent W d0 file = Returned fc ->
                      d0 !! file = Some (Definition_ fc)) ->
  mapAsync (deployFile W options existing) l d h = (ps, d', evs) ->
  (forall p, In p ps -> exists b, p = Returned b) ->
  d' = d.
Proof.
  intros Hfaithful. revert d h ps evs.
  induction l as [|x l IH]; intros d h ps evs Hmap Hall; cbn [mapAsync] in Hmap.
  - now inversion Hmap.
  - destruct (deployFile W options existing x d h) as [[p d1] e1] eqn:Hx.
    destruct (mapAsync (deployFile W options existing) l d1 (h ++ e1))
      as [[ps' d2] e2] eqn:Hrest.
    inversion Hmap; subst.
    destruct (Hall p (or_introl eq_refl)) as [b ->].
    rewrite (IH _ _ _ _ Hrest (fun p Hin => Hall p (or_intror Hin))).
    exact (deployFile_returned_disk _ _ _ _ _ _ _ _ _ (Hfaithful d x) Hx).
Qed.

(** X7. Round trip on the disk, per run: when [getFileContent] returns
    what the file holds, a run that reports success leaves the disk
    exactly as it found it. *)
Theorem X7_successful_run_leaves_disk_as_found W options sourceRoot d h d' evs :
  (forall d0 file fc, getFileContent W d0 file = Returned fc ->
                      d0 !! file = Some (Definition_ fc)) ->
  deployExecutor W options sourceRoot d h = (true, d', evs) ->
  d' = d.
Proof.
  intros Hfaithful Hrun.
  destruct (deployExecutor_cases W options sourceRoot d h)
    as [[_ Hrun'] | [[_ [err [_ Hrun']]] | [_ Hrun']]].
  - congruence.
  - congruence.
  - destruct Hrun' as [listed [ps [d'' [evs' [tail [_ [Hmap [Hrun' _]]]]]]]].
    rewrite Hrun in Hrun'. inversion Hrun' as [[Hall Hd Hevs]]. subst d''.
    apply (mapAsync_returned_disk _ _ _ _ _ _ _ _ _ Hfaithful Hmap).
    intros p Hin. symmetry in Hall. rewrite forallb_forall in Hall.
    specialize (Hall p Hin). destruct p as [b|err]; [eauto | discriminate].
Qed.

(** ** The plan of a unit *)

Lemma plan_app l1 l2 : plan (l1 ++ l2) = plan l1 ++ plan l2.
Proof. apply omap_app. Qed.

Lemma plan_quiet l : Forall (fun e => is_secret_op e = false) l -> plan l = [].
Proof.
  induction 1 as [|e l He _ IH]; [reflexivity|].
  change (e :: l) with ([e] ++ l). rewrite plan_app, IH.
  destruct e as [[]| | | | |]; try discriminate; reflexivity.
Qed.

(** X8. The operations a unit runs on its secret, by kind and in order,
    are one of seven plans: nothing; a create; a label update; a version
    add; a label update and a version add; a version add and a retirement;
    or all three of the latter.  So a unit never both creates and updates,
    never runs an operation twice, never retires without having added a
    version just before. *)
Theorem X8_unit_plan_is_one_of_seven W options existing file d h :
  In (plan (deployFile W options existing file d h).2)
     [ [];
       [Create];
       [UpdateLabels];
       [AddVersion];
       [UpdateLabels; AddVersion];
       [AddVersion; RetireVersion];
       [UpdateLabels; AddVersion; RetireVersion] ].
Proof.
  destruct (deployFile W options existing file d h) as [[r d'] evs] eqn:Hrun.
  cbn [snd]. apply deployFile_shape in Hrun.
  destruct Hrun as [[_ [-> _]] | [_ [fc [e1 [d1 [r2 [e2 [evs3 Hrun]]]]]]]];
    [now left|].
  destruct Hrun as [_ [Hdec [Hrec [-> Hcase]]]].
  rewrite !plan_app.
  rewrite (plan_quiet e1).
  2:{ eapply List.Forall_impl; [|exact (decrypted_quiet _ _ _ _ _ _ Hdec)].
      now intros e [He _]. }
  rewrite (plan_quiet evs3).
  2:{ destruct r2 as [success|err].
      - exact (afterReconcile_quiet _ _ _ _ _ _ _ _ _ _ Hcase).
      - destruct Hcase as [-> _]. constructor. }
  rewrite app_nil_r. cbn [app].
  apply reconcile_shape in Hrec. cbv zeta in Hrec.
  destruct Hrec as [[msg ->] | [el [e3 [-> [Hel He3]]]]]; [cbn; auto|].
  destruct Hel as [-> | [msg ->]];
    (destruct He3 as [-> | [e4 [-> [-> | [[msg' ->] | [msg' [ub [pv ->]]]]]]]]);
    cbn; auto 10.
Qed.

(** ** Order inside a unit *)

Lemma split_after_quiet {A} (P : A -> bool) (l1 l2 pre post : list A) e :
  l1 ++ l2 = pre ++ e :: post ->
  Forall (fun x => P x = false) l1 -> P e = true ->
  exists mid, pre = l1 ++ mid /\ l2 = mid ++ e :: post.
Proof.
  revert pre. induction l1 as [|x l1 IH]; intros pre Heq Hall He.
  - exists pre. now split.
  - inversion Hall as [|? ? Hx Hall']; subst.
    destruct pre as [|y pre]; cbn in Heq; inversion Heq; subst; [congruence|].
    destruct (IH pre H1 Hall' He) as [mid [-> ->]]. now exists mid.
Qed.

Lemma split_before_quiet {A} (P : A -> bool) (l1 l2 pre post : list A) e :
  l1 ++ l2 = pre ++ e :: post ->
  Forall (fun x => P x = false) l2 -> P e = true ->
  exists mid, l1 = pre ++ e :: mid /\ post = mid ++ l2.
Proof.
  revert l1. induction pre as [|y pre IH]; intros l1 Heq Hall He.
  - destruct l1 as [|x l1]; cbn in Heq.
    + subst l2. inversion Hall; congruence.
    + inversion Heq; subst. now exists l1.
  - destruct l1 as [|x l1]; cbn in Heq.
    + subst l2. inversion Hall as [|? ? _ Hall']; subst.
      apply List.Forall_app in Hall'. destruct Hall' as [_ Hall'].
      inversion Hall'; congruence.
    + inversion Heq; subst.
      destruct (IH l1 H1 Hall He) as [mid [-> ->]]. now exists mid.
Qed.

Lemma reconcile_returned_op W options existing file fc d h b d' evs :
  reconcile W options existing file fc d h = (Returned b, d', evs) ->
  Exists (fun e0 => is_create e0 || is_addVersion e0 = true) evs.
Proof.
  unfold reconcile. destruct (find _ existing) as [se|]; intros Hrun.
  - apply updateSecret_run in Hrun. destruct Hrun as [_ [r1 [el [_ Hcase]]]].
    destruct r1 as [[]|err]; [|now destruct Hcase].
    destruct (execCommand_version W _) as [name|err]; [|now destruct Hcase].
    destruct Hcase as [r3 [e3 [_ [-> _]]]].
    apply Exists_app. right. now constructor.
  - apply createSecret_run in Hrun. destruct Hrun as [_ [msg [-> _]]].
    right. now left.
Qed.

Lemma unit_front_no_iam W options existing file fc d h e1 d1 r2 e2 :
  decrypted W file fc d e1 d1 ->
  reconcile W options existing file fc d1 (h ++ e1) = (r2, d1, e2) ->
  Forall (fun e => is_iam e = false) (e1 ++ e2).
Proof.
  intros Hdec Hrec. apply List.Forall_app. split.
  - eapply List.Forall_impl; [|exact (decrypted_quiet _ _ _ _ _ _ Hdec)].
    now intros e [_ He].
  - eapply List.Forall_impl;
      [|exact (reconcile_event_quiet _ (reconcile_events _ _ _ _ _ _ _ _ _ _ Hrec))].
    now intros e [_ He].
Qed.

(** X9. Every IAM call of a unit comes after the create command or the
    version-add command of that unit: bindings are never read or changed
    for a secret the unit has not just created or given a new version. *)
Theorem X9_iam_calls_follow_create_or_add W options existing file d h pre e post :
  (deployFile W options existing file d h).2 = pre ++ e :: post ->
  is_iam e = true ->
  Exists (fun e0 => is_create e0 || is_addVersion e0 = true) pre.
Proof.
  destruct (deployFile W options existing file d h) as [[r d'] evs] eqn:Hrun.
  cbn [snd]. intros Hevs He. apply deployFile_shape in Hrun.
  destruct Hrun as [[_ [-> _]] | [_ [fc [e1 [d1 [r2 [e2 [evs3 Hrun]]]]]]]];
    [now destruct pre|].
  destruct Hrun as [_ [Hdec [Hrec [-> Hcase]]]].
  rewrite app_assoc in Hevs.
  destruct (split_after_quiet is_iam _ _ _ _ _ Hevs
              (unit_front_no_iam _ _ _ _ _ _ _ _ _ _ _ Hdec Hrec) He)
    as [mid [-> Hevs3]].
  destruct r2 as [success|err].
  - apply Exists_app. left. apply Exists_app. right.
    exact (reconcile_returned_op _ _ _ _ _ _ _ _ _ _ Hrec).
  - destruct Hcase as [-> _]. now destruct mid.
Qed.

(** X10. The upload of an encrypted definition reads the decrypted file:
    before the create or version-add command of the unit (both hand the
    file to gcloud with --data-file), the only write is the one of line 72
    that stores the decrypted content. *)
Theorem X10_upload_follows_the_decrypted_write W options existing file fc d h pre e post :
  getFileContent W d file = Returned fc ->
  status (__gcp_metadata fc) = "encrypted" ->
  (deployFile W options existing file d h).2 = pre ++ e :: post ->
  is_create e || is_addVersion e = true ->
  exists data rest,
    decryptFile W fc true = Returned data /\
    pre = Stored file (Decrypted data) :: rest /\
    Forall (fun e0 => is_stored e0 = false) rest.
Proof.
  intros Hread Henc.
  destruct (deployFile W options existing file d h) as [[r d'] evs] eqn:Hrun.
  cbn [snd]. intros Hevs He. apply deployFile_shape in Hrun.
  destruct Hrun as [[_ [-> _]] | [_ [fc' [e1 [d1 [r2 [e2 [evs3 Hrun]]]]]]]];
    [now destruct pre|].
  destruct Hrun as [Hread' [Hdec [Hrec [-> Hcase]]]].
  rewrite Hread in Hread'. inversion Hread'; subst fc'.
  unfold decrypted in Hdec. rewrite Henc in Hdec. cbn in Hdec.
  destruct Hdec as [data [Hdata [-> ->]]].
  exists data. destruct pre as [|s rest]; cbn in Hevs; inversion Hevs; subst.
  { discriminate. }
  exists rest. split; [exact Hdata|]. split; [reflexivity|].
  assert (Hop : is_secret_op e = true).
  { unfold is_secret_op. apply orb_true_iff in He. destruct He as [-> | ->];
      [reflexivity | now rewrite orb_true_r]. }
  assert (Hquiet : Forall (fun e0 => is_secret_op e0 = false) evs3).
  { destruct r2 as [success|err].
    - exact (afterReconcile_quiet _ _ _ _ _ _ _ _ _ _ Hcase).
    - destruct Hcase as [-> _]. constructor. }
  destruct (split_before_quiet is_secret_op _ _ _ _ _ H1 Hquiet Hop) as [mid [-> _]].
  pose proof (reconcile_event_quiet _ (reconcile_events _ _ _ _ _ _ _ _ _ _ Hrec)) as Hall.
  apply List.Forall_app in Hall. destruct Hall as [Hall _].
  eapply List.Forall_impl; [|exact Hall]. now intros e0 [He0 _].
Qed.

(** ** The result of a unit *)

(** X11. A unit returns [false] only through the create command: the
    secret was missing, the create command was run and reported failure.
    The success flags of every other command are ignored. *)
Theorem X11_unit_false_only_from_create W options existing file d h d' evs :
  deployFile W options existing file d h = (Returned false, d', evs) ->
  exists pre post msg flags,
    let create := Exec (SecretsCreate (secretNameOf W file) file flags
                          (getCommandOptions options)) in
    evs = pre ++ LogInfo msg :: create :: post /\
    execCommand_result W (h ++ pre ++ [LogInfo msg; create]) = Returned false.
Proof.
  intros Hrun. apply deployFile_shape in Hrun.
  destruct Hrun as [[_ [_ [[_ Hr] | [_ [err Hr]]]]] | [_ [fc [e1 [d1 [r2 [e2 [evs3 Hrun]]]]]]]];
    [discriminate | discriminate |].
  destruct Hrun as [_ [Hdec [Hrec [-> Hcase]]]].
  destruct r2 as [success|err]; [|now destruct Hcase as [_ [? _]]].
  destruct (afterReconcile_result _ _ _ _ _ _ _ _ _ _ Hcase) as [Hsucc _].
  specialize (Hsucc false eq_refl). subst success.
  unfold reconcile in Hrec. destruct (find _ existing) as [se|].
  - apply updateSecret_run in Hrec. destruct Hrec as [_ [r1 [el [_ Hupd]]]].
    destruct r1 as [[]|err]; [|now destruct Hupd].
    destruct (execCommand_version W _) as [name|err]; [|now destruct Hupd].
    destruct Hupd as [r3 [e3 [_ [_ Hr]]]]. now destruct r3.
  - apply createSecret_run in Hrec. destruct Hrec as [_ [msg [-> Hr]]].
    exists e1, evs3, msg, (addLabelsIfNeeded (labels (__gcp_metadata fc)) true).
    cbv zeta in Hr |- *. split; [reflexivity|].
    rewrite <- app_assoc in Hr. now symmetry.
Qed.

(** ** The bindings *)

Lemma serviceAccounts_settled allowed current :
  (forall x, In x allowed <-> In x current) ->
  serviceAccountsToAdd allowed current = [] /\
  serviceAccountsToDelete allowed current = [].
Proof.
  intros Hsame. split; apply filter_none, List.Forall_forall; intros x Hin;
    apply negb_false_iff, includes_In; now apply Hsame.
Qed.

(** X12. Convergence of the bindings: when the accounts declared in the
    file and the members of the accessor binding are the same set, in
    whatever order either is written, the IAM phase reads the policy and
    does nothing else: no grant, no revoke, no log line. *)
Theorem X12_settled_bindings_are_left_alone W options secretName allowed d h policy :
  let read := Exec (GetIamPolicy secretName (getCommandOptions options)) in
  execCommand_policy W (h ++ [read]) = Returned policy ->
  (forall x, In x allowed <-> In x (existingServiceAccountsOf policy)) ->
  manageServiceAccounts W options secretName allowed d h = (Returned tt, d, [read]).
Proof.
  intros read Hpolicy Hsame.
  destruct (serviceAccounts_settled _ _ Hsame) as [Hadd Hdel].
  rewrite manageServiceAccounts_blocks, bind_run.
  unfold execCommand at 1. fold read. rewrite Hpolicy. cbv zeta.
  rewrite Hadd, Hdel. reflexivity.
Qed.

(** The binding changes of a unit are taken from the two differences of
    one declared list and one list of current members. *)
Lemma deployFile_binding_changes W options existing file d h :
  exists allowed current, forall e,
    In e (deployFile W options existing file d h).2 ->
    is_binding_change e = true ->
    (exists n o m, e = Exec (AddIamPolicyBinding n m o) /\
                   In m (serviceAccountsToAdd allowed current)) \/
    (exists n o m, e = Exec (RemoveIamPolicyBinding n m o) /\
                   In m (serviceAccountsToDelete allowed current)).
Proof.
  destruct (deployFile W options existing file d h) as [[r d'] evs] eqn:Hrun.
  cbn [snd]. apply deployFile_shape in Hrun.
  destruct Hrun as [[_ [-> _]] | [_ [fc [e1 [d1 [r2 [e2 [evs3 Hrun]]]]]]]].
  { exists [], []. intros e []. }
  destruct Hrun as [_ [Hdec [Hrec [-> Hcase]]]].
  pose proof (unit_front_no_iam _ _ _ _ _ _ _ _ _ _ _ Hdec Hrec) as Hfront.
  rewrite List.Forall_forall in Hfront.
  assert (Hbc : forall e, is_binding_change e = true -> is_iam e = true).
  { intros e. destruct e as [[]| | | | |]; cbn; congruence. }
  rewrite app_assoc.
  destruct r2 as [success|err].
  2:{ destruct Hcase as [-> _]. exists [], []. intros e Hin He.
      rewrite app_nil_r in Hin. apply Hfront in Hin. apply Hbc in He. congruence. }
  apply afterReconcile_shape in Hcase. destruct Hcase as [e3 [e4 [-> [Hres Hiam]]]].
  assert (He3 : forall e, In e e3 -> is_binding_change e = false).
  { apply restored_cases in Hres. destruct Hres as [[-> _] | [-> _]].
    - intros e [].
    - intros e [<- | []]. reflexivity. }
  destruct (serviceAccounts (__gcp_metadata fc)) as [allowed|].
  2:{ destruct Hiam as [-> _]. exists [], []. intros e Hin He.
      rewrite app_nil_r in Hin. apply in_app_or in Hin. destruct Hin as [Hin | Hin].
      - apply Hfront in Hin. apply Hbc in He. congruence.
      - apply He3 in Hin. congruence. }
  destruct Hiam as [r4 [Hrun _]].
  set (read := Exec (GetIamPolicy (secretNameOf W file) (getCommandOptions options))).
  set (h4 := (h ++ e1 ++ e2) ++ e3) in Hrun.
  exists allowed,
    (match execCommand_policy W (h4 ++ [read]) with
     | Returned policy => existingServiceAccountsOf policy
     | Thrown _ => []
     end).
  intros e Hin He. apply in_app_or in Hin. destruct Hin as [Hin | Hin].
  { apply Hfront in Hin. apply Hbc in He. congruence. }
  apply in_app_or in Hin. destruct Hin as [Hin | Hin].
  { apply He3 in Hin. congruence. }
  destruct (manageServiceAccounts_members _ _ _ _ _ _ _ _ _ e Hrun Hin)
    as [-> | [[msg ->] | [policy [Hpolicy Hmember]]]]; [discriminate | discriminate |].
  fold read in Hpolicy. rewrite Hpolicy.
  destruct Hmember as [[m [-> Hm]] | [m [-> Hm]]]; [left | right]; eauto.
Qed.

(** X13. Within one unit no account is both granted and revoked: a member
    that a grant command names is named by no revoke command. *)
Theorem X13_no_member_granted_and_revoked W options existing file d h m n1 o1 n2 o2 :
  let evs := (deployFile W options existing file d h).2 in
  In (Exec (AddIamPolicyBinding n1 m o1)) evs ->
  ~ In (Exec (RemoveIamPolicyBinding n2 m o2)) evs.
Proof.
  intros evs Hadd Hdel.
  destruct (deployFile_binding_changes W options existing file d h)
    as [allowed [current Hall]].
  destruct (Hall _ Hadd eq_refl) as [[n [o [m' [Heq Hm]]]] | [n [o [m' [Heq _]]]]];
    [|discriminate].
  destruct (Hall _ Hdel eq_refl) as [[n' [o' [m'' [Heq' _]]]] | [n' [o' [m'' [Heq' Hm']]]]];
    [discriminate|].
  inversion Heq; inversion Heq'; subst.
  apply serviceAccountsToAdd_In in Hm. apply serviceAccountsToDelete_In in Hm'.
  tauto.
Qed.

(** *** Grants come first *)

(** X14. In the IAM phase every grant is run before the first revoke:
    once a remove-iam-policy-binding command has been run, no
    add-iam-policy-binding command follows. *)
Theorem X14_grants_come_before_revokes W options secretName allowed d h pre e post :
  (manageServiceAccounts W options secretName allowed d h).2 = pre ++ e :: post ->
  is_revoke e = true ->
  Forall (fun e' => is_grant e' = false) post.
Proof.
  destruct (manageServiceAccounts W options secretName allowed d h)
    as [[r d'] evs] eqn:Hrun.
  cbn [snd]. intros Hevs He. apply manageServiceAccounts_run in Hrun.
  destruct Hrun as [_ [tail [-> [_ Hcase]]]].
  destruct pre as [|x pre]; cbn in Hevs; inversion Hevs; subst; [discriminate|].
  destruct (execCommand_policy W _) as [policy|err];
    [|destruct Hcase as [Hnil _]; now destruct pre].
  cbv zeta in Hcase. destruct Hcase as [rest [Heq _]].
  rewrite List.filter_app in Heq. cbn [List.filter] in Heq.
  assert (Hbc : is_binding_change e = true).
  { destruct e as [[]| | | | |]; try discriminate; reflexivity. }
  rewrite Hbc in Heq. rewrite <- app_assoc in Heq. cbn [app] in Heq.
  apply (split_after_quiet is_revoke) in Heq; [|now apply Forall_map, Forall_true|exact He].
  destruct Heq as [mid [_ Hrevokes]].
  apply List.Forall_forall. intros e' Hin.
  destruct (is_grant e') eqn:Hgrant; [|reflexivity].
  assert (Hin' : In e' (map (fun m => Exec (RemoveIamPolicyBinding secretName m
                                             (getCommandOptions options)))
                          (serviceAccountsToDelete allowed
                             (existingServiceAccountsOf policy)))).
  { rewrite Hrevokes. apply in_or_app. right. right. apply in_or_app. left.
    apply List.filter_In. split; [exact Hin|].
    destruct e' as [[]| | | | |]; try discriminate; reflexivity. }
  apply in_map_iff in Hin'. destruct Hin' as [m [<- _]]. discriminate.
Qed.

(** ** The error a run reports *)

Lemma promiseAll_first bs err ps2 :
  promiseAll (map Returned bs ++ Thrown err :: ps2) = Thrown err.
Proof.
  induction bs as [|b bs IH]; [reflexivity|]. cbn. now rewrite IH.
Qed.

(** X15. When units are rejected, the run reports the error of the first
    rejected file in the order of [getAllSecretFiles]: the error line and
    the trace line come after the events of every unit, also of the files
    that follow the rejected one; the run reports failure and the disk is
    as the units left it. *)
Theorem X15_first_rejection_is_reported W options sourceRoot d h listed bs err ps2 d' evs :
  let list := Exec (SecretsList (getCommandOptions options)) in
  isEncryptionKeySet W = true ->
  execCommand_secrets W (h ++ [list]) = Returned listed ->
  mapAsync (deployFile W options (map shortName listed))
    (getAllSecretFiles W sourceRoot) d (h ++ [list])
    = (map Returned bs ++ Thrown err :: ps2, d', evs) ->
  deployExecutor W options sourceRoot d h
  = (false, d',
     list :: evs ++ [LogError ("Error happened trying to decrypt files: " +:+ err);
                     ConsoleError err]).
Proof.
  intros list Hkey Hlist Hmap.
  unfold deployExecutor, tryBody. rewrite Hkey, bind_run.
  unfold execCommand at 1. fold list. rewrite Hlist, Hmap, promiseAll_first.
  reflexivity.
Qed.

(** ** Names: files, secrets and versions *)

(** X16. The secret name is the file name without its last extension:
    for a file called [base.ext], where [ext] has no dot, the secret is
    called [base], however many dots [base] has. *)
Theorem X16_secret_name_drops_last_extension W file base ext :
  getFileName W file = base +:+ "." +:+ ext ->
  no_char "." ext ->
  secretNameOf W file = base.
Proof.
  intros Hname Hfree. unfold secretNameOf, JS.split. rewrite Hname.
  change (JS.join (JS.str1 ".")
            (removelast (JS.split_from (JS.str1 ".") (base +:+ String "." ext) 0 EmptyString))
          = base).
  rewrite (split_from_char_last "." base ext EmptyString Hfree).
  rewrite removelast_last. apply (join_split_from_char "." base EmptyString).
Qed.

(** X17. A file name without a dot gives the empty secret name: the
    whole name is taken for the extension. *)
Theorem X17_file_name_without_dot_gives_empty_secret_name W file :
  no_char "." (getFileName W file) ->
  secretNameOf W file = EmptyString.
Proof.
  intros Hfree. unfold secretNameOf, JS.split.
  change (JS.join "." (removelast
            (JS.split_from (JS.str1 ".") (getFileName W file) 0 EmptyString))
          = EmptyString).
  now rewrite (split_from_char_free "." _ EmptyString Hfree).
Qed.

(** *** Splitting at the first occurrence of a separator *)

(** X18. Line 49 on a resource name: when the listed name is
    [p/secrets/id], this [/secrets/] is the first one in the name and
    [id] contains none, the name the executor compares with is [id]. *)
Theorem X18_listed_name_is_shortened_to_its_id (s : ExistingSecret) (p id : string) :
  secret_name s = p +:+ "/secrets/" +:+ id ->
  String.index 0 "/secrets/" (secret_name s) = Some (String.length p) ->
  String.index 0 "/secrets/" id = None ->
  secret_name (shortName s) = id.
Proof.
  intros Hname Hfirst Hnone. unfold shortName, JS.split_pop. cbn [secret_name].
  rewrite Hname in Hfirst |- *.
  now rewrite (split_at_only_occurrence "/" "secrets/" p id Hfirst Hnone).
Qed.

(** X19. Line 49 on a bare name: a listed name in which [/secrets/] does
    not occur is kept as it is, labels included. *)
Theorem X19_bare_listed_name_is_kept (s : ExistingSecret) :
  String.index 0 "/secrets/" (secret_name s) = None ->
  shortName s = s.
Proof.
  intros Hnone. destruct s as [name lbls]. unfold shortName, JS.split_pop, JS.split.
  cbn [secret_name secret_labels] in *.
  now rewrite (split_from_absent "/" "secrets/" name EmptyString Hnone).
Qed.

(** *** Version numbers *)

(** X20. Lines 113-124 on a version name: when the version-add command
    answers [p/versions/N], with [N] a decimal numeral up to [2^53] and
    this [/versions/] the first one in the name, the destroy or disable
    command of the unit is run on version [N - 1], after one log line. *)
Theorem X20_retirement_targets_the_version_before W options secretName fc p n d h :
  updateBehaviorOf fc = "destroy" \/ updateBehaviorOf fc = "disable" ->
  String.index 0 "/versions/" (p +:+ "/versions/" +:+ decimal n)
    = Some (String.length p) ->
  (Z.of_nat n <= 2 ^ 53)%Z ->
  exists msg,
    retireStep W options secretName fc (p +:+ "/versions/" +:+ decimal n) d h
    = (match execCommand_result W
               (h ++ [LogInfo msg;
                      Exec (VersionsRetire (updateBehaviorOf fc)
                              (JS.Num (Z.of_nat n - 1)) secretName
                              (getCommandOptions options))]) with
       | Returned _ => Returned tt
       | Thrown err => Thrown err
       end, d,
       [LogInfo msg;
        Exec (VersionsRetire (updateBehaviorOf fc) (JS.Num (Z.of_nat n - 1))
                secretName (getCommandOptions options))]).
Proof.
  intros Hub Hfirst Hbound.
  destruct (retireStep W options secretName fc (p +:+ "/versions/" +:+ decimal n) d h)
    as [[r d'] evs] eqn:Hrun.
  apply retireStep_run in Hrun. cbv zeta in Hrun.
  rewrite (split_pop_numeral p n Hfirst), (version_before n Hbound) in Hrun.
  destruct Hrun as [-> [[Hnone _] | [[_ [msg [-> Hr]]] | [_ [Hd [Hs _]]]]]].
  - destruct Hub as [Hub | Hub]; rewrite Hub in Hnone; discriminate.
  - exists msg. destruct (execCommand_result W _); now subst r.
  - destruct Hub; contradiction.
Qed.

(** ** The further properties at work on the concrete workspaces *)

Lemma readDefinition_faithful d file fc :
  Scenario.readDefinition d file = Returned fc -> d !! file = Some (Definition_ fc).
Proof.
  unfold Scenario.readDefinition.
  destruct (d !! file) as [[c|data]|]; intros H; inversion H; reflexivity.
Qed.

(** X4 at work: with [secret = api] the create command of the run is
    about [api]. *)
Lemma X4_witness :
  SecretsCreate "api" "secrets/api.json" ["--clear-labels"] []
    = SecretsList (getCommandOptions Scenario.onlyApi)
  \/ command_secret (SecretsCreate "api" "secrets/api.json" ["--clear-labels"] [])
     = Some "api".
Proof.
  apply (X4_secret_option_restricts_the_run Scenario.healthy Scenario.onlyApi
           "apps/web/src" Scenario.files [] "api").
  - reflexivity.
  - discriminate.
  - vm_compute. right; right; left. reflexivity.
Defined.

(** X5 at work: with [secret = api] the file of [db] is left alone. *)
Lemma X5_witness :
  (deployExecutor Scenario.healthy Scenario.onlyApi "apps/web/src" Scenario.files []).1.2
    !! "secrets/db.json"
  = Scenario.files !! "secrets/db.json".
Proof.
  apply (X5_run_writes_only_deployed_files Scenario.healthy Scenario.onlyApi
           "apps/web/src" Scenario.files [] "secrets/db.json").
  intros _. reflexivity.
Defined.

(** X6 at work: the unit of the encrypted [db] on the healthy
    workspace. *)
Lemma X6_witness :
  (deployFile Scenario.healthy Scenario.acme Scenario.existing
     "secrets/db.json" Scenario.files []).1.2 = Scenario.files.
Proof.
  pose (unit := deployFile Scenario.healthy Scenario.acme Scenario.existing
                  "secrets/db.json" Scenario.files []).
  apply (X6_returned_unit_leaves_disk_as_found Scenario.healthy Scenario.acme
           Scenario.existing "secrets/db.json" Scenario.files [] true unit.1.2 unit.2).
  - intros fc. apply readDefinition_faithful.
  - vm_compute. reflexivity.
Defined.

(** X7 at work: the healthy run. *)
Lemma X7_witness :
  (deployExecutor Scenario.healthy Scenario.acme "apps/web/src" Scenario.files []).1.2
  = Scenario.files.
Proof.
  pose (run := deployExecutor Scenario.healthy Scenario.acme "apps/web/src"
                 Scenario.files []).
  apply (X7_successful_run_leaves_disk_as_found Scenario.healthy Scenario.acme
           "apps/web/src" Scenario.files [] run.1.2 run.2).
  - intros d0 file fc. apply readDefinition_faithful.
  - vm_compute. reflexivity.
Defined.

(** X9 at work: the policy read of [db] on the healthy workspace comes
    after the version add. *)
Lemma X9_witness :
  Exists (fun e0 => is_create e0 || is_addVersion e0 = true)
    (firstn 7 (deployFile Scenario.healthy Scenario.acme Scenario.existing
                 "secrets/db.json" Scenario.files []).2).
Proof.
  pose (unit := deployFile Scenario.healthy Scenario.acme Scenario.existing
                  "secrets/db.json" Scenario.files []).
  apply (X9_iam_calls_follow_create_or_add Scenario.healthy Scenario.acme
           Scenario.existing "secrets/db.json" Scenario.files []
           (firstn 7 unit.2) (Exec (GetIamPolicy "db" ["--project=acme"]))
           (skipn 8 unit.2)).
  - vm_compute. reflexivity.
  - reflexivity.
Defined.

(** X10 at work: the version add of the encrypted [db]. *)
Lemma X10_witness :
  exists data rest,
    decryptFile Scenario.healthy Scenario.dbFile true = Returned data /\
    firstn 3 (deployFile Scenario.healthy Scenario.acme Scenario.existing
                "secrets/db.json" Scenario.files []).2
      = Stored "secrets/db.json" (Decrypted data) :: rest /\
    Forall (fun e0 => is_stored e0 = false) rest.
Proof.
  pose (unit := deployFile Scenario.healthy Scenario.acme Scenario.existing
                  "secrets/db.json" Scenario.files []).
  apply (X10_upload_follows_the_decrypted_write Scenario.healthy Scenario.acme
           Scenario.existing "secrets/db.json" Scenario.dbFile Scenario.files []
           (firstn 3 unit.2)
           (Exec (VersionsAdd "db" "secrets/db.json" ["--project=acme"]))
           (skipn 4 unit.2)).
  - reflexivity.
  - reflexivity.
  - vm_compute. reflexivity.
  - reflexivity.
Defined.

(** X11 at work: the create command of [api] is refused. *)
Lemma X11_witness :
  exists pre post msg flags,
    let create := Exec (SecretsCreate "api" "secrets/api.json" flags ["--project=acme"]) in
    (deployFile Scenario2.createRefused Scenario.acme [] "secrets/api.json"
       Scenario.files []).2
      = pre ++ LogInfo msg :: create :: post /\
    execCommand_result Scenario2.createRefused ([] ++ pre ++ [LogInfo msg; create])
      = Returned false.
Proof.
  pose (unit := deployFile Scenario2.createRefused Scenario.acme []
                  "secrets/api.json" Scenario.files []).
  apply (X11_unit_false_only_from_create Scenario2.createRefused Scenario.acme []
           "secrets/api.json" Scenario.files [] unit.1.2 unit.2).
  vm_compute. reflexivity.
Defined.

(** X12 at work: the accounts of the policy, declared in another order. *)
Lemma X12_witness :
  manageServiceAccounts Scenario.healthy Scenario.acme "db" ["sa:z"; "sa:y"]
    Scenario.files []
  = (Returned tt, Scenario.files, [Exec (GetIamPolicy "db" ["--project=acme"])]).
Proof.
  apply (X12_settled_bindings_are_left_alone Scenario.healthy Scenario.acme "db"
           ["sa:z"; "sa:y"] Scenario.files [] Scenario.policy).
  - reflexivity.
  - intros x. change (In x ["sa:z"; "sa:y"] <-> In x ["sa:y"; "sa:z"]).
    cbn [In]. tauto.
Defined.

(** X13 at work: [sa:x] is granted on the healthy workspace, and not
    revoked. *)
Lemma X13_witness :
  ~ In (Exec (RemoveIamPolicyBinding "db" "sa:x" ["--project=acme"]))
       (deployFile Scenario.healthy Scenario.acme Scenario.existing
          "secrets/db.json" Scenario.files []).2.
Proof.
  apply (X13_no_member_granted_and_revoked Scenario.healthy Scenario.acme
           Scenario.existing "secrets/db.json" Scenario.files []
           "sa:x" "db" ["--project=acme"] "db" ["--project=acme"]).
  vm_compute. do 9 right. left. reflexivity.
Defined.

(** X14 at work: one account to grant, two to revoke. *)
Lemma X14_witness :
  Forall (fun e' => is_grant e' = false)
    (skipn 5 (manageServiceAccounts Scenario.healthy Scenario.acme "db" ["sa:x"]
                Scenario.files []).2).
Proof.
  pose (iam := manageServiceAccounts Scenario.healthy Scenario.acme "db" ["sa:x"]
                 Scenario.files []).
  apply (X14_grants_come_before_revokes Scenario.healthy Scenario.acme "db" ["sa:x"]
           Scenario.files [] (firstn 4 iam.2)
           (Exec (RemoveIamPolicyBinding "db" "sa:y" ["--project=acme"]))
           (skipn 5 iam.2)).
  - vm_compute. reflexivity.
  - reflexivity.
Defined.

(** X15 at work: the version add of [db] throws, [api] is still created,
    and the error of [db] is reported last. *)
Lemma X15_witness :
  exists d' evs,
    deployExecutor Scenario.versionAddFails Scenario.acme "apps/web/src" Scenario.files []
    = (false, d',
       Exec (SecretsList ["--project=acme"])
       :: evs ++ [LogError ("Error happened trying to decrypt files: "
                            +:+ "gcloud: PERMISSION_DENIED");
                  ConsoleError "gcloud: PERMISSION_DENIED"]).
Proof.
  pose (units := mapAsync (deployFile Scenario.versionAddFails Scenario.acme
                             Scenario.existing)
                   ["secrets/db.json"; "secrets/api.json"] Scenario.files
                   [Exec (SecretsList ["--project=acme"])]).
  exists units.1.2, units.2.
  apply (X15_first_rejection_is_reported Scenario.versionAddFails Scenario.acme
           "apps/web/src" Scenario.files [] Scenario.listed []
           "gcloud: PERMISSION_DENIED" [Returned true] units.1.2 units.2).
  - reflexivity.
  - reflexivity.
  - vm_compute. reflexivity.
Defined.

(** X16 at work: only the last extension goes. *)
Lemma X16_witness : secretNameOf Scenario.healthy "secrets/archive.tar.gz" = "archive.tar".
Proof.
  apply (X16_secret_name_drops_last_extension Scenario.healthy
           "secrets/archive.tar.gz" "archive.tar" "gz").
  - reflexivity.
  - unfold no_char. cbn. intuition discriminate.
Defined.

(** X17 at work: a file without extension. *)
Lemma X17_witness : secretNameOf Scenario.healthy "secrets/README" = EmptyString.
Proof.
  apply (X17_file_name_without_dot_gives_empty_secret_name Scenario.healthy
           "secrets/README").
  unfold no_char. vm_compute. intuition discriminate.
Defined.

(** X18 at work: the secret the listing of the healthy workspace
    returns. *)
Lemma X18_witness :
  secret_name (shortName {| secret_name := "projects/1/secrets/db";
                           secret_labels := Some [("b", "2"); ("a", "1")] |})
  = "db".
Proof.
  apply (X18_listed_name_is_shortened_to_its_id _ "projects/1" "db");
    reflexivity.
Defined.

(** X19 at work: a listing that answers with short names. *)
Lemma X19_witness :
  shortName {| secret_name := "db"; secret_labels := Some [("a", "1"); ("b", "2")] |}
  = {| secret_name := "db"; secret_labels := Some [("a", "1"); ("b", "2")] |}.
Proof.
  apply (X19_bare_listed_name_is_kept
           {| secret_name := "db"; secret_labels := Some [("a", "1"); ("b", "2")] |}).
  reflexivity.
Defined.

(** X20 at work: version 7 has been added, version 6 is destroyed. *)
Lemma X20_witness :
  exists msg,
    retireStep Scenario.healthy Scenario.acme "db" Scenario.dbFile
      ("projects/1/secrets/db" +:+ "/versions/" +:+ decimal 7) Scenario.files []
    = (match execCommand_result Scenario.healthy
               ([] ++ [LogInfo msg;
                       Exec (VersionsRetire (updateBehaviorOf Scenario.dbFile)
                               (JS.Num (Z.of_nat 7 - 1)) "db"
                               (getCommandOptions Scenario.acme))]) with
       | Returned _ => Returned tt
       | Thrown err => Thrown err
       end, Scenario.files,
       [LogInfo msg;
        Exec (VersionsRetire (updateBehaviorOf Scenario.dbFile) (JS.Num (Z.of_nat 7 - 1))
                "db" (getCommandOptions Scenario.acme))]).
Proof.
  apply (X20_retirement_targets_the_version_before Scenario.healthy Scenario.acme
           "db" Scenario.dbFile "projects/1/secrets/db" 7 Scenario.files []).
  - left. reflexivity.
  - reflexivity.
  - vm_compute. discriminate.
Defined.
